(** * Verification of the webinar registration handlers

    The repository holds two versions of one Firebase HTTPS function,
    [register]:

    - the base variant ([functions/index.js]): validate, fetch a Zoom token,
      create the registrant, answer 200, then push the member to one
      Mailchimp list;
    - the extended variant (the second source file): more required fields,
      region normalisation, two Mailchimp lists, and the answer is sent
      after both list calls.

    Both are embedded below as programs of a small effect monad ([Async]):
    outbound [fetch] calls are answered by a [World], calls on the Express
    response object [res] are recorded in a trace, and JavaScript exceptions
    are an explicit completion.

    Left out: [console.log] and [console.error] (no effect on calls or
    responses), the values of the configuration constants (endpoints and
    credentials are symbolic, and are taken to be strings), and the header
    writes of the [cors] middleware that wraps the extended handler. *)

From Stdlib Require Import List String Ascii ZArith NArith Bool Lia PrimFloat.
Import ListNotations.
Local Open Scope string_scope.
Local Open Scope Z_scope.
Local Open Scope list_scope.
Set Warnings "-register-all".

(** ** JavaScript strings

    A JavaScript string is a sequence of UTF-16 code units; regular
    expressions without the [u] flag work on code units. *)

Definition jsstring := list N.

(** A literal of the source, one code unit per character. *)
Definition js (s : string) : jsstring :=
  map N_of_ascii (list_ascii_of_string s).
Arguments js : simpl never.

Fixpoint jsstring_eqb (a b : jsstring) : bool :=
  match a, b with
  | [], [] => true
  | x :: a', y :: b' => N.eqb x y && jsstring_eqb a' b'
  | _, _ => false
  end.

(** ** JavaScript values, as far as JSON produces them *)

Inductive jsval :=
| JUndefined
| JNull
| JBool (b : bool)
| JNum (x : float)
| JStr (s : jsstring)
| JArr (items : list jsval)
| JObj (members : list (jsstring * jsval)).

(** [ToBoolean]: what [!v] and [v || w] test. *)
Definition truthy (v : jsval) : bool :=
  match v with
  | JUndefined | JNull => false
  | JBool b => b
  | JNum x => negb (is_zero x || is_nan x)
  | JStr [] => false
  | JStr (_ :: _) => true
  | JArr _ | JObj _ => true
  end.

(** Own property of an object built by [JSON.parse] or by an object
    literal; a key given twice keeps its last value. *)
Fixpoint member (k : jsstring) (ms : list (jsstring * jsval)) (dflt : jsval) : jsval :=
  match ms with
  | [] => dflt
  | (k', v) :: ms' => member k ms' (if jsstring_eqb k k' then v else dflt)
  end.

(** [v.k] for the keys the handlers read ([access_token], [join_url],
    [message]; none is a built-in property of strings, arrays, numbers or
    booleans).  [None] is the TypeError of reading a property of [null] or
    [undefined]. *)
Definition get_prop (v : jsval) (k : jsstring) : option jsval :=
  match v with
  | JUndefined | JNull => None
  | JObj ms => Some (member k ms JUndefined)
  | JBool _ | JNum _ | JStr _ | JArr _ => Some JUndefined
  end.

(** ** Regular expressions

    Only what the e-mail pattern needs: character classes, concatenation
    and iteration, matched against the whole input (the pattern is anchored
    with [^] and [$] and has no [m] flag).  Matching is by Brzozowski
    derivatives. *)

Module Regex.

Inductive regex :=
| Empty
| Eps
| Class (p : N -> bool)
| Cat (r1 r2 : regex)
| Alt (r1 r2 : regex)
| Star (r : regex).

Definition Plus (r : regex) : regex := Cat r (Star r).

Fixpoint nullable (r : regex) : bool :=
  match r with
  | Empty => false
  | Eps => true
  | Class _ => false
  | Cat r1 r2 => nullable r1 && nullable r2
  | Alt r1 r2 => nullable r1 || nullable r2
  | Star _ => true
  end.

Fixpoint deriv (c : N) (r : regex) : regex :=
  match r with
  | Empty => Empty
  | Eps => Empty
  | Class p => if p c then Eps else Empty
  | Cat r1 r2 =>
      if nullable r1
      then Alt (Cat (deriv c r1) r2) (deriv c r2)
      else Cat (deriv c r1) r2
  | Alt r1 r2 => Alt (deriv c r1) (deriv c r2)
  | Star r1 => Cat (deriv c r1) (Star r1)
  end.

Fixpoint matches (r : regex) (s : jsstring) : bool :=
  match s with
  | [] => nullable r
  | c :: s' => matches (deriv c r) s'
  end.

(** The strings a regular expression denotes, to check [matches]
    against. *)
Inductive lang : regex -> jsstring -> Prop :=
| lang_eps : lang Eps []
| lang_class p c : p c = true -> lang (Class p) [c]
| lang_cat r1 r2 s1 s2 : lang r1 s1 -> lang r2 s2 -> lang (Cat r1 r2) (s1 ++ s2)
| lang_alt_l r1 r2 s : lang r1 s -> lang (Alt r1 r2) s
| lang_alt_r r1 r2 s : lang r2 s -> lang (Alt r1 r2) s
| lang_star_nil r : lang (Star r) []
| lang_star_cons r s1 s2 : lang r s1 -> lang (Star r) s2 -> lang (Star r) (s1 ++ s2).

(** [\s]: WhiteSpace and LineTerminator code units of ECMAScript. *)
Definition is_space (c : N) : bool :=
  existsb (N.eqb c)
    [9; 10; 11; 12; 13; 32; 160; 5760; 8232; 8233; 8239; 8287; 12288; 65279]%N
  || (8192 <=? c)%N && (c <=? 8202)%N.

Definition chr (a : ascii) : regex := Class (N.eqb (N_of_ascii a)).

(** [[^\s@]] *)
Definition not_space_at : regex :=
  Class (fun c => negb (is_space c || N.eqb c (N_of_ascii "@"))).

End Regex.

(** [const emailRegex = /^[^\s@]+@[^\s@]+\.[^\s@]+$/;] *)
Definition emailRegex : Regex.regex :=
  Regex.Cat (Regex.Plus Regex.not_space_at)
    (Regex.Cat (Regex.chr "@")
       (Regex.Cat (Regex.Plus Regex.not_space_at)
          (Regex.Cat (Regex.chr ".")
             (Regex.Plus Regex.not_space_at)))).

Definition emailRegex_test (s : jsstring) : bool := Regex.matches emailRegex s.

(** ** Errors

    A thrown error object: its [name] and [message], and the two properties
    the handlers attach ([error.type], [error.text]); [JUndefined] when the
    property was never set. *)

Record exn := mkError {
  e_name : jsstring;
  e_message : jsstring;
  e_type : jsval;
  e_text : jsval
}.

(** [new Error(msg)] *)
Definition new_Error (msg : jsstring) : exn :=
  mkError (js "Error") msg JUndefined JUndefined.

(** [new TypeError(msg)] *)
Definition new_TypeError (msg : jsstring) : exn :=
  mkError (js "TypeError") msg JUndefined JUndefined.

(** [Error.prototype.toString] *)
Definition Error_toString (e : exn) : jsstring :=
  match e_name e, e_message e with
  | [], msg => msg
  | name, [] => name
  | name, msg => name ++ js ": " ++ msg
  end.

(** The engine's TypeError for a property read on [null] or [undefined]. *)
Definition type_error : exn :=
  new_TypeError (js "Cannot read properties of null or undefined").

(** The engine's TypeError for a value that cannot be converted to a
    string. *)
Definition conversion_error : exn :=
  new_TypeError (js "Cannot convert object to primitive value").

(** Node's ERR_HTTP_HEADERS_SENT. *)
Definition headers_sent_error : exn :=
  new_Error (js "Cannot set headers after they are sent to the client").

(** ** The platform

    Built-ins of the JavaScript engine and of node-fetch that the handlers
    call but the repository does not define. *)

Record Runtime := {
  (** [JSON.parse]; [None] is its SyntaxError. *)
  JSON_parse : jsstring -> option jsval;
  (** [Number.prototype.toString]: the decimal form of a number. *)
  Number_toString : float -> jsstring;
  (** The error [response.json()] rejects with on a body that is not JSON. *)
  json_reject : jsstring -> exn
}.

(** ** Requests *)

(** [req.method] and the properties the handlers destructure from
    [req.body]; a property the body does not have is [JUndefined]. *)
Record Request := {
  method : jsstring;
  firstName : jsval;
  lastName : jsval;
  email : jsval;
  company : jsval;
  jobTitle : jsval;
  eventId : jsval;
  city : jsval;
  state : jsval;
  region : jsval;
  zipCode : jsval;
  phone : jsval;
  identifier : jsval
}.

(** ** Outbound calls *)

Inductive ListId := MAILCHIMP_LIST_ID | MAILCHIMP_LIST_ID_2.

Inductive Endpoint :=
| ZoomToken                          (* https://zoom.us/oauth/token?... *)
| ZoomRegistrants (eventId : jsval)  (* https://api.zoom.us/v2/webinars/${eventId}/registrants *)
| MailchimpMembers (l : ListId).     (* https://<prefix>.api.mailchimp.com/3.0/lists/<l>/members *)

Inductive Authorization :=
| Basic                 (* Basic btoa(client id : client secret) *)
| Bearer (token : jsval)
| ApiKey.               (* apikey MAILCHIMP_API_KEY *)

(** One [fetch(url, {method: 'POST', headers, body})]; [payload] is the
    object handed to [JSON.stringify] ([JUndefined] when there is no body). *)
Record Call := {
  endpoint : Endpoint;
  authorization : Authorization;
  payload : jsval
}.

Record Response := {
  status : Z;
  text : jsstring
}.

(** [response.ok] of node-fetch: a status in 200..299. *)
Definition ok (r : Response) : bool := (200 <=? status r) && (status r <=? 299).

Inductive FetchResult :=
| Rejected (e : exn)
| Resolved (r : Response).

(** The providers, as seen from one invocation. *)
Definition World := Call -> FetchResult.

(** ** Effects *)

Inductive Event :=
| EvFetch (c : Call)
| EvSet (name value : jsstring)
| EvSend (code : Z) (body : jsval).

(** The Express response object: what was done to it, and whether the
    response has been committed. *)
Record ResState := {
  trace : list Event;
  headersSent : bool
}.

Definition fresh : ResState := {| trace := []; headersSent := false |}.

Inductive outcome (A : Type) :=
| Returned (a : A)
| Thrown (e : exn).
Arguments Returned {A} a.
Arguments Thrown {A} e.

Definition Async (A : Type) : Type := World -> ResState -> ResState * outcome A.

Definition ret {A} (a : A) : Async A := fun _ s => (s, Returned a).

Definition bind {A B} (m : Async A) (k : A -> Async B) : Async B :=
  fun w s =>
    match m w s with
    | (s', Returned a) => k a w s'
    | (s', Thrown e) => (s', Thrown e)
    end.

Definition throw {A} (e : exn) : Async A := fun _ s => (s, Thrown e).

Definition try_catch {A} (m : Async A) (handler : exn -> Async A) : Async A :=
  fun w s =>
    match m w s with
    | (s', Returned a) => (s', Returned a)
    | (s', Thrown e) => handler e w s'
    end.

Notation "x <- m ;; k" := (bind m (fun x => k))
  (at level 61, m at next level, right associativity).
Notation "m ;;; k" := (bind m (fun _ => k))
  (at level 61, right associativity).

Definition emit (ev : Event) (s : ResState) : ResState :=
  {| trace := trace s ++ [ev]; headersSent := headersSent s |}.

(** [await fetch(...)] *)
Definition fetch (c : Call) : Async Response :=
  fun w s =>
    (emit (EvFetch c) s,
     match w c with
     | Resolved r => Returned r
     | Rejected e => Thrown e
     end).

(** [res.set(name, value)]: refused once the response is committed. *)
Definition res_set (name value : jsstring) : Async unit :=
  fun _ s =>
    if headersSent s then (s, Thrown headers_sent_error)
    else (emit (EvSet name value) s, Returned tt).

(** [res.status(code).send(body)] and [res.status(code).json(body)]: the
    first one commits the response, a later one is refused by Express with
    ERR_HTTP_HEADERS_SENT and nothing goes out. *)
Definition res_send (code : Z) (body : jsval) : Async unit :=
  fun _ s =>
    if headersSent s then (s, Thrown headers_sent_error)
    else ({| trace := trace s ++ [EvSend code body]; headersSent := true |},
          Returned tt).

(** What the caller and the providers observe of a run. *)
Fixpoint responses (tr : list Event) : list (Z * jsval) :=
  match tr with
  | [] => []
  | EvSend code body :: tr' => (code, body) :: responses tr'
  | _ :: tr' => responses tr'
  end.

Fixpoint calls (tr : list Event) : list Call :=
  match tr with
  | [] => []
  | EvFetch c :: tr' => c :: calls tr'
  | _ :: tr' => calls tr'
  end.

Definition run {A} (m : Async A) (w : World) : ResState * outcome A := m w fresh.
Definition responses_of {A} (m : Async A) (w : World) : list (Z * jsval) :=
  responses (trace (fst (run m w))).
Definition calls_of {A} (m : Async A) (w : World) : list Call :=
  calls (trace (fst (run m w))).

(** ** Conversion to a string *)

(** The object has an own property of this name. *)
Definition has_own (k : jsstring) (ms : list (jsstring * jsval)) : bool :=
  existsb (fun kv => jsstring_eqb k (fst kv)) ms.

(** Whether [ToString] (below) returns on a value; this does not depend on
    how numbers are printed. *)
Fixpoint convertible (v : jsval) : bool :=
  match v with
  | JArr items =>
      (fix all (l : list jsval) : bool :=
         match l with
         | [] => true
         | x :: l' => convertible x && all l'
         end) items
  | JObj ms => negb (has_own (js "toString") ms)
  | _ => true
  end.

(** ** Code shared by the two source files *)

Section Shared.

Variable rt : Runtime.

(** [ToString] of a value that JSON produces; [None] is the TypeError
    "Cannot convert object to primitive value".  An object converts to
    "[object Object]" through the inherited [toString], unless it has an
    own property [toString]: no JSON value is callable, and the inherited
    [valueOf] returns the object itself, so the conversion throws.  An
    array is joined with commas, its [null] and [undefined] elements giving
    the empty string. *)
Fixpoint ToString (v : jsval) : option jsstring :=
  match v with
  | JUndefined => Some (js "undefined")
  | JNull => Some (js "null")
  | JBool true => Some (js "true")
  | JBool false => Some (js "false")
  | JNum x => Some (Number_toString rt x)
  | JStr s => Some s
  | JArr items =>
      (fix join (l : list jsval) : option jsstring :=
         match l with
         | [] => Some []
         | x :: l' =>
             let element :=
               match x with
               | JUndefined | JNull => Some []
               | _ => ToString x
               end in
             match l' with
             | [] => element
             | _ :: _ =>
                 match element, join l' with
                 | Some e, Some rest => Some (e ++ 44%N :: rest)
                 | _, _ => None
                 end
             end
         end) items
  | JObj ms =>
      if has_own (js "toString") ms then None else Some (js "[object Object]")
  end.

(** A conversion as an effect: what a template literal [`${v}`] and
    [RegExp.prototype.test] do to their argument. *)
Definition to_string (v : jsval) : Async jsstring :=
  match ToString v with
  | Some s => ret s
  | None => throw conversion_error
  end.

(** [emailRegex.test(email)] *)
Definition test_email (email : jsval) : Async bool :=
  s <- to_string email ;;
  ret (emailRegex_test s).

(** [await response.json()] *)
Definition json (r : Response) : Async jsval :=
  match JSON_parse rt (text r) with
  | Some v => ret v
  | None => throw (json_reject rt (text r))
  end.

(** [v.k] as an effect: the read throws on [null] and [undefined]. *)
Definition prop (v : jsval) (k : jsstring) : Async jsval :=
  match get_prop v k with
  | Some x => ret x
  | None => throw type_error
  end.

Definition token_call : Call :=
  {| endpoint := ZoomToken; authorization := Basic; payload := JUndefined |}.

(** [async function getZoomAccessToken()], the same text in both files. *)
Definition getZoomAccessToken : Async jsval :=
  response <- fetch token_call ;;
  if negb (ok response) then
    let errorText := text response in
    throw (new_Error (js "Failed to fetch Zoom access token: " ++ errorText))
  else
    data <- json response ;;
    prop data (js "access_token").

(** The body of both [catch (error)] blocks up to the response:
<<
    let errorInfo = error?.text;
    try {
        if (typeof error?.text === 'string') {
            const parsedError = JSON.parse(error.text);
            errorInfo = parsedError.message || error.text;
        }
    } catch (e) {
        errorInfo = error?.text;
    }
>> *)
Definition errorInfo (error : exn) : jsval :=
  match e_text error with
  | JStr s =>
      match JSON_parse rt s with
      | Some parsedError =>
          match get_prop parsedError (js "message") with
          | Some m => if truthy m then m else JStr s
          | None => JStr s
          end
      | None => JStr s
      end
  | other => other
  end.

(** The errors the handlers build from a provider's response:
<<
    const error = new Error(`<prefix>${errorText}`);
    error.type = <type>;
    error.text = errorText;
>> *)
Definition api_error (prefix type : string) (errorText : jsstring) : exn :=
  {| e_name := js "Error";
     e_message := js prefix ++ errorText;
     e_type := JStr (js type);
     e_text := JStr errorText |}.

Definition missing_fields_body : jsval :=
  JObj [(js "message", JStr (js "Request Error"));
        (js "info", JStr (js "Missing required fields"));
        (js "errorAt", JStr (js "requestBody"))].

Definition invalid_email_body : jsval :=
  JObj [(js "message", JStr (js "Request Error"));
        (js "info", JStr (js "Invalid email format"));
        (js "errorAt", JStr (js "requestBody"))].

Definition success_body (join_url : jsval) : jsval :=
  JObj [(js "message", JStr (js "Registration successful"));
        (js "join_url", join_url)].

Definition error_body (error : exn) : jsval :=
  JObj [(js "message", JStr (js "Internal Server Error"));
        (js "info", errorInfo error);
        (js "errorAt", e_type error)].

End Shared.

(** ** The base variant ([functions/index.js]) *)

Module Base.
Section WithRuntime.

Variable rt : Runtime.

Definition zoom_call (req : Request) (zoomAccessToken : jsval) : Call :=
  {| endpoint := ZoomRegistrants (eventId req);
     authorization := Bearer zoomAccessToken;
     payload := JObj [(js "email", email req);
                      (js "first_name", firstName req);
                      (js "last_name", lastName req);
                      (js "org", company req)] |}.

Definition mailchimp_call (req : Request) : Call :=
  {| endpoint := MailchimpMembers MAILCHIMP_LIST_ID;
     authorization := ApiKey;
     payload := JObj [(js "email_address", email req);
                      (js "status_if_new", JStr (js "subscribed"));
                      (js "merge_fields",
                       JObj [(js "FNAME", firstName req);
                             (js "LNAME", lastName req);
                             (js "COMPANY", company req);
                             (js "JOBTITLE", jobTitle req)])] |}.

(** The body of [try].  The arguments of the registrant [fetch] are
    evaluated before the call: the URL
    [`https://api.zoom.us/v2/webinars/${eventId}/registrants`], then the
    header [`Bearer ${zoomAccessToken}`]. *)
Definition attempt (req : Request) : Async unit :=
  zoomAccessToken <- getZoomAccessToken rt ;;
  to_string rt (eventId req) ;;;
  to_string rt zoomAccessToken ;;;
  zoomResponse <- fetch (zoom_call req zoomAccessToken) ;;
  if negb (ok zoomResponse) then
    let errorText := text zoomResponse in
    throw (api_error "Zoom API error: " "zoom" errorText)
  else
    zoomData <- json rt zoomResponse ;;
    join_url <- prop zoomData (js "join_url") ;;
    res_send 200 (success_body join_url) ;;;
    mailchimpResponse <- fetch (mailchimp_call req) ;;
    if negb (ok mailchimpResponse) && negb (status mailchimpResponse =? 400) then
      let errorText := text mailchimpResponse in
      throw (api_error "Mailchimp API error: " "mailchimp" errorText)
    else ret tt.

(** The body of [catch (error)]. *)
Definition on_error (error : exn) : Async unit :=
  res_send 500 (error_body rt error).

Definition register (req : Request) : Async unit :=
  if negb (jsstring_eqb (method req) (js "POST")) then
    res_send 405 (JStr (js "Method Not Allowed"))
  else if negb (truthy (firstName req)) || negb (truthy (lastName req))
          || negb (truthy (email req)) || negb (truthy (eventId req))
          || negb (truthy (company req)) then
    res_send 500 missing_fields_body
  else
    matched <- test_email rt (email req) ;;
    if negb matched then
      res_send 400 invalid_email_body
    else
      try_catch (attempt req) on_error.

End WithRuntime.
End Base.

(** ** The extended variant (the second source file) *)

Module Extended.
Section WithRuntime.

Variable rt : Runtime.

(** [if (region === "United States") { region = "US" }] *)
Definition normalized_region (req : Request) : jsval :=
  match region req with
  | JStr s => if jsstring_eqb s (js "United States") then JStr (js "US") else JStr s
  | other => other
  end.

Definition zoom_call (req : Request) (region : jsval) (zoomAccessToken : jsval) : Call :=
  {| endpoint := ZoomRegistrants (eventId req);
     authorization := Bearer zoomAccessToken;
     payload := JObj [(js "email", email req);
                      (js "first_name", firstName req);
                      (js "last_name", lastName req);
                      (js "org", company req);
                      (js "city", city req);
                      (js "country", region);
                      (js "zip", zipCode req);
                      (js "state", state req);
                      (js "phone", phone req);
                      (js "job_title", jobTitle req)] |}.

Definition mailchimp_call (l : ListId) (req : Request) (region : jsval) : Call :=
  {| endpoint := MailchimpMembers l;
     authorization := ApiKey;
     payload := JObj [(js "email_address", email req);
                      (js "status", JStr (js "subscribed"));
                      (js "status_if_new", JStr (js "subscribed"));
                      (js "merge_fields",
                       JObj [(js "FNAME", firstName req);
                             (js "LNAME", lastName req);
                             (js "COMPANY", company req);
                             (js "JOBTITLE", jobTitle req);
                             (js "CITY", city req);
                             (js "PHONE", phone req);
                             (js "STATE", state req);
                             (js "ZIPCODE", zipCode req);
                             (js "REGION", region);
                             (js "LEADSOURCE", JStr (js "WEBSITE EVENT REGISTRATION"))]);
                      (js "tag", JStr (js "ALUMNI"))] |}.

Definition allow_origin : Async unit :=
  res_set (js "Access-Control-Allow-Origin") (js "*").

(** The body of the inner [try]; the URL and the header of the registrant
    [fetch] are evaluated before the call, as in the base variant. *)
Definition attempt (req : Request) (region : jsval) : Async unit :=
  zoomAccessToken <- getZoomAccessToken rt ;;
  to_string rt (eventId req) ;;;
  to_string rt zoomAccessToken ;;;
  zoomResponse <- fetch (zoom_call req region zoomAccessToken) ;;
  if negb (ok zoomResponse) then
    let errorText := text zoomResponse in
    throw (api_error "Zoom API error: " "zoom" errorText)
  else
    zoomData <- json rt zoomResponse ;;
    mailchimpResponse <- fetch (mailchimp_call MAILCHIMP_LIST_ID req region) ;;
    mailchimpResponse2 <- fetch (mailchimp_call MAILCHIMP_LIST_ID_2 req region) ;;
    if negb (ok mailchimpResponse2) && negb (status mailchimpResponse2 =? 200) then
      let errorText := text mailchimpResponse2 in
      throw (api_error "Mailchimp 2 List API error: " "mailchimp 2" errorText)
    else if negb (ok mailchimpResponse) && negb (status mailchimpResponse =? 200) then
      let errorText := text mailchimpResponse in
      throw (api_error "Mailchimp 1 List API error: " "mailchimp 1" errorText)
    else
      allow_origin ;;;
      join_url <- prop zoomData (js "join_url") ;;
      res_send 200 (success_body join_url).

(** The body of the inner [catch (error)]. *)
Definition on_error (error : exn) : Async unit :=
  allow_origin ;;;
  res_send 500 (error_body rt error).

(** The body of the outer [catch (err)]. *)
Definition on_err (err : exn) : Async unit :=
  allow_origin ;;;
  res_send 500 (JObj [(js "message", JStr (js "Internal Server Error"));
                      (js "error", JStr (Error_toString err))]).

(** The callback handed to [cors]. *)
Definition callback (req : Request) : Async unit :=
  if jsstring_eqb (method req) (js "OPTIONS") then
    res_set (js "Access-Control-Allow-Origin") (js "*") ;;;
    res_set (js "Access-Control-Allow-Methods") (js "GET, POST") ;;;
    res_set (js "Access-Control-Allow-Headers") (js "Content-Type") ;;;
    res_send 204 (JStr [])
  else if negb (jsstring_eqb (method req) (js "POST")) then
    res_send 405 (JStr (js "Method Not Allowed"))
  else
    try_catch
      (if negb (truthy (firstName req)) || negb (truthy (lastName req))
          || negb (truthy (email req)) || negb (truthy (eventId req))
          || negb (truthy (company req)) || negb (truthy (city req))
          || negb (truthy (region req)) || negb (truthy (zipCode req))
          || negb (truthy (state req)) || negb (truthy (phone req))
          || negb (truthy (jobTitle req)) then
         res_send 500 missing_fields_body
       else
         let region := normalized_region req in
         matched <- test_email rt (email req) ;;
         if negb matched then
           res_send 400 invalid_email_body
         else
           try_catch (attempt req region) on_error)
      on_err.

(** [require('cors')({ origin: true })].  The package is not part of the
    repository; from its documentation: a preflight (an OPTIONS request) is
    answered by the middleware itself, with status 204 and no body, and the
    callback is not called; for every other method the callback runs.  The
    headers the middleware writes are left out of the trace. *)
Definition cors (req : Request) (next : Async unit) : Async unit :=
  if jsstring_eqb (method req) (js "OPTIONS") then res_send 204 (JStr [])
  else next.

(** [exports.register] *)
Definition register (req : Request) : Async unit :=
  cors req (callback req).

End WithRuntime.
End Extended.

(** ** Configuration

    The module-level code of both files: [isLocal], [getEnvVar] and the
    constants read through it when the module is loaded. *)

Module Config.

(** What the module reads from its host: [process.env[k]] ([JUndefined]
    when the variable is not set) and [functions.config()[k]], which is
    either [undefined] ([None]) or an object whose properties can be read. *)
Record Platform := {
  process_env : jsstring -> jsval;
  functions_config : jsstring -> option (jsstring -> jsval)
}.

(** [const isLocal = !process.env.FUNCTION_NAME;] *)
Definition isLocal (P : Platform) : bool :=
  negb (truthy (process_env P (js "FUNCTION_NAME"))).

(** [s.split(sep)] for a separator of one code unit. *)
Fixpoint split (sep : N) (s : jsstring) : list jsstring :=
  match s with
  | [] => [[]]
  | c :: s' =>
      if N.eqb c sep then [] :: split sep s'
      else match split sep s' with
           | part :: parts => (c :: part) :: parts
           | [] => [[c]]
           end
  end.

(** [parts[i]] used as a property key: an index past the end gives
    [undefined], which as a key is the string "undefined". *)
Definition key_at (parts : list jsstring) (i : nat) : jsstring :=
  match nth_error parts i with
  | Some part => part
  | None => js "undefined"
  end.

(** [[
    const getEnvVar = (key, path) =>
        isLocal ? process.env[key]
                : functions.config()[path.split('.')[0]][path.split('.')[1]];
    ]]
    [Thrown] is the TypeError of reading a property of [undefined]. *)
Definition getEnvVar (P : Platform) (key path : jsstring) : outcome jsval :=
  if isLocal P then Returned (process_env P key)
  else
    match functions_config P (key_at (split 46 path) 0) with
    | Some section => Returned (section (key_at (split 46 path) 1))
    | None => Thrown type_error
    end.

(** [const NAME = getEnvVar('NAME', 'section.name');], one after the other;
    the first one that throws ends the loading of the module. *)
Fixpoint load (P : Platform) (declarations : list (string * string))
  : outcome (list (string * jsval)) :=
  match declarations with
  | [] => Returned []
  | (name, path) :: rest =>
      match getEnvVar P (js name) (js path) with
      | Thrown e => Thrown e
      | Returned v =>
          match load P rest with
          | Thrown e => Thrown e
          | Returned constants => Returned ((name, v) :: constants)
          end
      end
  end.

(** The constants of [functions/index.js], in the order of the file. *)
Definition base_declarations : list (string * string) :=
  [("ZOOM_ACCOUNT_ID", "zoom.account_id");
   ("ZOOM_CLIENT_ID", "zoom.client_id");
   ("ZOOM_CLIENT_SECRET", "zoom.client_secret");
   ("MAILCHIMP_API_KEY", "mailchimp.api_key");
   ("MAILCHIMP_SERVER_PREFIX", "mailchimp.server_prefix");
   ("MAILCHIMP_LIST_ID", "mailchimp.list_id");
   ("HUBSPOT_API_TOKEN", "hubspot.api_token")].

(** The constants of the second source file. *)
Definition extended_declarations : list (string * string) :=
  [("ZOOM_ACCOUNT_ID", "zoom.account_id");
   ("ZOOM_CLIENT_ID", "zoom.client_id");
   ("ZOOM_CLIENT_SECRET", "zoom.client_secret");
   ("MAILCHIMP_API_KEY", "mailchimp.api_key");
   ("MAILCHIMP_SERVER_PREFIX", "mailchimp.server_prefix");
   ("MAILCHIMP_LIST_ID", "mailchimp.list_id");
   ("MAILCHIMP_LIST_ID_2", "mailchimp.list_id_2");
   ("HUBSPOT_API_TOKEN", "hubspot.api_token")].

(** A platform for closed examples: the emulator, where [FUNCTION_NAME] is
    not set, and the hosted runtime with the given sections. *)
Definition emulator (env : jsstring -> jsval) : Platform :=
  {| process_env := fun k => if jsstring_eqb k (js "FUNCTION_NAME") then JUndefined else env k;
     functions_config := fun _ => None |}.

Definition hosted (sections : list string) : Platform :=
  {| process_env := fun k =>
       if jsstring_eqb k (js "FUNCTION_NAME") then JStr (js "register") else JUndefined;
     functions_config := fun k =>
       if existsb (fun s => jsstring_eqb k (js s)) sections
       then Some (fun name => JStr (k ++ js "/" ++ name))
       else None |}.

End Config.

(** ** Requests that differ in one property *)

Definition with_email (v : jsval) (r : Request) : Request :=
  {| method := method r; firstName := firstName r; lastName := lastName r;
     email := v; company := company r; jobTitle := jobTitle r;
     eventId := eventId r; city := city r; state := state r;
     region := region r; zipCode := zipCode r; phone := phone r;
     identifier := identifier r |}.

Definition with_eventId (v : jsval) (r : Request) : Request :=
  {| method := method r; firstName := firstName r; lastName := lastName r;
     email := email r; company := company r; jobTitle := jobTitle r;
     eventId := v; city := city r; state := state r;
     region := region r; zipCode := zipCode r; phone := phone r;
     identifier := identifier r |}.


Definition with_identifier (v : jsval) (r : Request) : Request :=
  {| method := method r; firstName := firstName r; lastName := lastName r;
     email := email r; company := company r; jobTitle := jobTitle r;
     eventId := eventId r; city := city r; state := state r;
     region := region r; zipCode := zipCode r; phone := phone r;
     identifier := v |}.

Definition with_address (c s r z p : jsval) (req : Request) : Request :=
  {| method := method req; firstName := firstName req; lastName := lastName req;
     email := email req; company := company req; jobTitle := jobTitle req;
     eventId := eventId req; city := c; state := s;
     region := r; zipCode := z; phone := p;
     identifier := identifier req |}.

Definition with_method (m : jsstring) (req : Request) : Request :=
  {| method := m; firstName := firstName req; lastName := lastName req;
     email := email req; company := company req; jobTitle := jobTitle req;
     eventId := eventId req; city := city req; state := state req;
     region := region req; zipCode := zipCode req; phone := phone req;
     identifier := identifier req |}.

(** ** A concrete platform and concrete providers, for closed examples *)

Module Example.

(** A literal in which the apostrophe stands for the double quote. *)
Definition jsq (s : string) : jsstring :=
  map (fun c => if N.eqb c 39 then 34%N else c) (js s).

(** The characters up to the closing double quote (no escapes). *)
Fixpoint read_string (s : jsstring) : option (jsstring * jsstring) :=
  match s with
  | [] => None
  | c :: s' =>
      if N.eqb c 34 then Some ([], s')
      else if N.eqb c 92 then None
      else match read_string s' with
           | Some (str, rest) => Some (c :: str, rest)
           | None => None
           end
  end.

Fixpoint read_members (fuel : nat) (s : jsstring) : option (list (jsstring * jsval)) :=
  match fuel, s with
  | S fuel', 34%N :: s1 =>
      match read_string s1 with
      | Some (k, 58%N :: 34%N :: s2) =>
          match read_string s2 with
          | Some (v, [125%N]) => Some [(k, JStr v)]
          | Some (v, 44%N :: s3) =>
              match read_members fuel' s3 with
              | Some ms => Some ((k, JStr v) :: ms)
              | None => None
              end
          | _ => None
          end
      | _ => None
      end
  | _, _ => None
  end.

(** [JSON.parse] restricted to objects whose members are strings without
    escapes and without white space between tokens; every other text is
    rejected.  The closed examples use no other JSON. *)
Definition parse_flat_object (s : jsstring) : option jsval :=
  match s with
  | [123%N; 125%N] => Some (JObj [])
  | 123%N :: s' => option_map JObj (read_members (List.length s') s')
  | _ => None
  end.

Definition runtime : Runtime :=
  {| JSON_parse := parse_flat_object;
     Number_toString := fun _ => js "NaN";
     json_reject := fun _ =>
       mkError (js "FetchError") (js "invalid json response body")
         (JStr (js "invalid-json")) JUndefined |}.

Definition reply (code : Z) (body : string) : FetchResult :=
  Resolved {| status := code; text := jsq body |}.

(** Providers that answer by endpoint. *)
Definition world (token zoom list1 list2 : FetchResult) : World :=
  fun c =>
    match endpoint c with
    | ZoomToken => token
    | ZoomRegistrants _ => zoom
    | MailchimpMembers MAILCHIMP_LIST_ID => list1
    | MailchimpMembers MAILCHIMP_LIST_ID_2 => list2
    end.

Definition token_ok : FetchResult := reply 200 "{'access_token':'tok'}".
Definition zoom_ok : FetchResult := reply 201 "{'join_url':'https://zoom.example/j/1'}".
Definition list_ok : FetchResult := reply 200 "{'id':'m1'}".
Definition member_exists : FetchResult := reply 400 "{'title':'Member Exists'}".

Definition all_ok : World := world token_ok zoom_ok list_ok list_ok.

Definition str (s : string) : jsval := JStr (js s).

(** The JSON value [{"toString": 1}]: its conversion to a string throws. *)
Definition unconvertible : jsval := JObj [(js "toString", JNum one)].

(** A request that passes validation in both variants. *)
Definition valid_request : Request :=
  {| method := js "POST";
     firstName := str "A"; lastName := str "B"; email := str "a@b.com";
     company := str "C"; jobTitle := str "D"; eventId := str "123";
     city := str "Paris"; state := str "IdF"; region := str "France";
     zipCode := str "75001"; phone := str "0102030405";
     identifier := JUndefined |}.

End Example.

(** ** Vocabulary for stating the properties *)

(** A required field is missing when the handlers' test [!field] holds:
    the property is absent ([undefined]), [null], an empty string, [false],
    zero or NaN.  It is present otherwise. *)
Definition missing (v : jsval) : Prop := truthy v = false.
Definition present (v : jsval) : Prop := truthy v = true.

Definition required_base (req : Request) : list jsval :=
  [firstName req; lastName req; email req; eventId req; company req].

Definition required_extended (req : Request) : list jsval :=
  required_base req
  ++ [jobTitle req; city req; state req; region req; zipCode req; phone req].

Definition is_POST (req : Request) : Prop := method req = js "POST".

(** A non-empty run of code units that are neither white space nor [@]. *)
Definition plain (c : N) : Prop := Regex.is_space c = false /\ c <> 64%N.
Definition word (s : jsstring) : Prop := s <> [] /\ Forall plain s.

(** [local@domain.tld] *)
Definition email_shape (s : jsstring) : Prop :=
  exists a b c, s = a ++ [64%N] ++ b ++ [46%N] ++ c /\ word a /\ word b /\ word c.

(** What [emailRegex.test(email)] returns; [None] when the conversion of
    the e-mail throws. *)
Definition email_test (rt : Runtime) (req : Request) : option bool :=
  option_map emailRegex_test (ToString rt (email req)).

(** The e-mail of the request, converted to a string, passes, or fails, the
    pattern; neither holds when the conversion throws. *)
Definition email_well_formed (rt : Runtime) (req : Request) : Prop :=
  email_test rt req = Some true.

(** The value can be put into a template literal. *)
Definition converts (rt : Runtime) (v : jsval) : Prop := ToString rt v <> None.

(** Requests that get past validation. *)
Definition valid_base (rt : Runtime) (req : Request) : Prop :=
  is_POST req /\ Forall present (required_base req) /\ email_well_formed rt req.
Definition valid_extended (rt : Runtime) (req : Request) : Prop :=
  is_POST req /\ Forall present (required_extended req) /\ email_well_formed rt req.

(** How token acquisition ends against given providers. *)
Definition token_outcome (rt : Runtime) (w : World) : outcome jsval :=
  snd (run (getZoomAccessToken rt) w).

(** The call can be sent: the template literals of its URL
    ([`.../webinars/${eventId}/registrants`]) and of its header
    ([`Bearer ${zoomAccessToken}`]) can be evaluated. *)
Definition sendable (c : Call) : bool :=
  match endpoint c with
  | ZoomRegistrants id => convertible id
  | _ => true
  end
  && match authorization c with
     | Bearer token => convertible token
     | _ => true
     end.

(** A provider answers a call with a response: the call can be sent, and
    this is the provider's answer to it. *)
Definition answers (w : World) (c : Call) (r : Response) : Prop :=
  sendable c = true /\ w c = Resolved r.

(** The member of a payload reached by a path of keys. *)
Fixpoint at_path (v : jsval) (path : list string) : jsval :=
  match path with
  | [] => v
  | k :: path' =>
      match v with
      | JObj ms => at_path (member (js k) ms JUndefined) path'
      | _ => JUndefined
      end
  end.


(** The error response of the handlers carries this provenance tag. *)
Definition errorAt (body : jsval) : option jsval := get_prop body (js "errorAt").
Definition info (body : jsval) : option jsval := get_prop body (js "info").

(** The hosted configuration has this section. *)
Definition configured (P : Config.Platform) (section : string) : Prop :=
  Config.functions_config P (js section) <> None.

(** The list call of the base variant fails: the fetch is rejected, or the
    guard [!mailchimpResponse.ok && mailchimpResponse.status !== 400]
    holds. *)
Definition list_sync_failed (w : World) (req : Request) : bool :=
  match w (Base.mailchimp_call req) with
  | Rejected _ => true
  | Resolved m => negb (ok m) && negb (status m =? 400)
  end.

(** [res.set('Access-Control-Allow-Origin', '*')] *)
Definition allow_origin_event : Event :=
  EvSet (js "Access-Control-Allow-Origin") (js "*").

(** The four calls of the extended variant, in the order of the source. *)
Definition extended_call_sequence (req : Request) (tok : jsval) : list Call :=
  [token_call;
   Extended.zoom_call req (Extended.normalized_region req) tok;
   Extended.mailchimp_call MAILCHIMP_LIST_ID req (Extended.normalized_region req);
   Extended.mailchimp_call MAILCHIMP_LIST_ID_2 req (Extended.normalized_region req)].

(** An outbound call of the base variant carries the request's properties
    as they came, only those the base variant sends, and goes to the first
    list if to a list. *)
Definition forwards_base (req : Request) (c : Call) : Prop :=
  match endpoint c with
  | ZoomToken => c = token_call
  | ZoomRegistrants id =>
      id = eventId req
      /\ at_path (payload c) ["email"] = email req
      /\ at_path (payload c) ["first_name"] = firstName req
      /\ at_path (payload c) ["last_name"] = lastName req
      /\ at_path (payload c) ["org"] = company req
      /\ Forall (fun k => at_path (payload c) [k] = JUndefined)
           ["city"; "country"; "zip"; "state"; "phone"; "job_title"]
  | MailchimpMembers l =>
      l = MAILCHIMP_LIST_ID
      /\ at_path (payload c) ["email_address"] = email req
      /\ at_path (payload c) ["status_if_new"] = JStr (js "subscribed")
      /\ at_path (payload c) ["merge_fields"; "FNAME"] = firstName req
      /\ at_path (payload c) ["merge_fields"; "LNAME"] = lastName req
      /\ at_path (payload c) ["merge_fields"; "COMPANY"] = company req
      /\ at_path (payload c) ["merge_fields"; "JOBTITLE"] = jobTitle req
      /\ Forall (fun k => at_path (payload c) ["merge_fields"; k] = JUndefined)
           ["CITY"; "PHONE"; "STATE"; "ZIPCODE"; "REGION"]
  end.

(** * Properties *)

(** ** Sanity checks of the embedding on concrete inputs *)

Example emailRegex_accepts : emailRegex_test (js "a@b.com") = true.
Proof. vm_compute. reflexivity. Qed.

Example emailRegex_accepts_dotted : emailRegex_test (js "a.b@c.d.org") = true.
Proof. vm_compute. reflexivity. Qed.

Example emailRegex_rejects_no_tld : emailRegex_test (js "a@b") = false.
Proof. vm_compute. reflexivity. Qed.

Example emailRegex_rejects_space : emailRegex_test (js "a b@c.de") = false.
Proof. vm_compute. reflexivity. Qed.

Example emailRegex_rejects_two_at : emailRegex_test (js "a@b@c.de") = false.
Proof. vm_compute. reflexivity. Qed.

Example emailRegex_rejects_trailing_dot : emailRegex_test (js "a@b.") = false.
Proof. vm_compute. reflexivity. Qed.

Section Examples.
Import Example.

Example parse_flat_object_join_url :
  parse_flat_object (jsq "{'join_url':'https://zoom.example/j/1'}")
  = Some (JObj [(js "join_url", str "https://zoom.example/j/1")]).
Proof. vm_compute. reflexivity. Qed.

Example parse_flat_object_plain_text : parse_flat_object (js "Service Unavailable") = None.
Proof. vm_compute. reflexivity. Qed.

Example base_run_all_ok :
  run (Base.register runtime valid_request) all_ok
  = ({| trace := [EvFetch token_call;
                  EvFetch (Base.zoom_call valid_request (str "tok"));
                  EvSend 200 (success_body (str "https://zoom.example/j/1"));
                  EvFetch (Base.mailchimp_call valid_request)];
        headersSent := true |}, Returned tt).
Proof. vm_compute. reflexivity. Qed.

Example extended_run_all_ok :
  run (Extended.register runtime valid_request) all_ok
  = ({| trace := [EvFetch token_call;
                  EvFetch (Extended.zoom_call valid_request (str "France") (str "tok"));
                  EvFetch (Extended.mailchimp_call MAILCHIMP_LIST_ID valid_request (str "France"));
                  EvFetch (Extended.mailchimp_call MAILCHIMP_LIST_ID_2 valid_request (str "France"));
                  EvSet (js "Access-Control-Allow-Origin") (js "*");
                  EvSend 200 (success_body (str "https://zoom.example/j/1"))];
        headersSent := true |}, Returned tt).
Proof. vm_compute. reflexivity. Qed.

End Examples.

(** ** The e-mail pattern

    The derivative matcher decides the language of a regular expression,
    and the pattern of the handlers accepts exactly the strings of the form
    [local@domain.tld]. *)

Module RegexFacts.
Import Regex.

Lemma lang_cat_inv (r1 r2 : regex) (s : jsstring) :
  lang (Cat r1 r2) s -> exists s1 s2, s = s1 ++ s2 /\ lang r1 s1 /\ lang r2 s2.
Proof. intros H. inversion H; subst. eauto. Qed.

Lemma lang_alt_inv (r1 r2 : regex) (s : jsstring) :
  lang (Alt r1 r2) s -> lang r1 s \/ lang r2 s.
Proof. intros H. inversion H; subst; auto. Qed.

Lemma lang_class_inv (p : N -> bool) (s : jsstring) :
  lang (Class p) s -> exists c, s = [c] /\ p c = true.
Proof. intros H. inversion H; subst. eauto. Qed.

Lemma nullable_lang (r : regex) : nullable r = true <-> lang r [].
Proof.
  induction r as [| |p|r1 IH1 r2 IH2|r1 IH1 r2 IH2|r IH]; cbn.
  - split; [discriminate|]. intros H; inversion H.
  - split; [constructor|reflexivity].
  - split; [discriminate|]. intros H; inversion H.
  - rewrite andb_true_iff, IH1, IH2. split.
    + intros [H1 H2]. apply (lang_cat r1 r2 [] [] H1 H2).
    + intros H. apply lang_cat_inv in H as (s1 & s2 & E & H1 & H2).
      symmetry in E. apply app_eq_nil in E as [-> ->]. now split.
  - rewrite orb_true_iff, IH1, IH2. split.
    + intros [H|H]; [now apply lang_alt_l|now apply lang_alt_r].
    + apply lang_alt_inv.
  - split; [constructor|reflexivity].
Qed.

Lemma lang_star_cons_inv (r : regex) (c : N) (s : jsstring) :
  lang (Star r) (c :: s) ->
  exists s1 s2, s = s1 ++ s2 /\ lang r (c :: s1) /\ lang (Star r) s2.
Proof.
  remember (Star r) as r' eqn:Er. remember (c :: s) as cs eqn:Es.
  intros H. revert r c s Er Es.
  induction H as [| | | | | |r0 s1 s2 H1 _ H2 IH2]; intros r' c' s' Er Es;
    try discriminate.
  injection Er as ->.
  destruct s1 as [|c1 s1].
  - cbn in Es. now apply IH2.
  - cbn in Es. injection Es as -> <-. now exists s1, s2.
Qed.

Lemma lang_cat_cons (r1 r2 : regex) (c : N) (s : jsstring) :
  lang (Cat r1 r2) (c :: s) <->
  (exists s1 s2, s = s1 ++ s2 /\ lang r1 (c :: s1) /\ lang r2 s2)
  \/ (lang r1 [] /\ lang r2 (c :: s)).
Proof.
  split.
  - intros H. apply lang_cat_inv in H as (s1 & s2 & E & H1 & H2).
    destruct s1 as [|c1 s1]; cbn in E.
    + right. subst. auto.
    + injection E as -> ->. left. now exists s1, s2.
  - intros [(s1 & s2 & -> & H1 & H2)|[H1 H2]].
    + apply (lang_cat r1 r2 (c :: s1) s2 H1 H2).
    + apply (lang_cat r1 r2 [] (c :: s) H1 H2).
Qed.

Lemma deriv_lang (r : regex) (c : N) (s : jsstring) :
  lang (deriv c r) s <-> lang r (c :: s).
Proof.
  revert s. induction r as [| |p|r1 IH1 r2 IH2|r1 IH1 r2 IH2|r IH]; intros s; cbn.
  - split; intros H; inversion H.
  - split; intros H; inversion H.
  - destruct (p c) eqn:Ep.
    + split; intros H; inversion H; subst; [now constructor|constructor].
    + split; intros H; inversion H; subst. congruence.
  - assert (Hcat : lang (Cat (deriv c r1) r2) s <->
                   exists s1 s2, s = s1 ++ s2 /\ lang r1 (c :: s1) /\ lang r2 s2).
    { split.
      - intros H. apply lang_cat_inv in H as (s1 & s2 & -> & H1 & H2).
        exists s1, s2. rewrite <- IH1. auto.
      - intros (s1 & s2 & -> & H1 & H2). constructor; [now apply IH1|assumption]. }
    rewrite lang_cat_cons. destruct (nullable r1) eqn:En.
    + apply nullable_lang in En. split.
      * intros H. apply lang_alt_inv in H as [H|H];
          [left; now apply Hcat|right; split; [assumption|now apply IH2]].
      * intros [H|[_ H]];
          [apply lang_alt_l; now apply Hcat|apply lang_alt_r; now apply IH2].
    + rewrite Hcat. split; [auto|]. intros [H|[H _]]; [assumption|].
      apply nullable_lang in H. congruence.
  - split; intros H.
    + apply lang_alt_inv in H as [H|H];
        [apply lang_alt_l; now apply IH1|apply lang_alt_r; now apply IH2].
    + apply lang_alt_inv in H as [H|H];
        [apply lang_alt_l; now apply IH1|apply lang_alt_r; now apply IH2].
  - split.
    + intros H. apply lang_cat_inv in H as (s1 & s2 & -> & H1 & H2).
      apply IH in H1. apply (lang_star_cons r (c :: s1) s2 H1 H2).
    + intros H. apply lang_star_cons_inv in H as (s1 & s2 & -> & H1 & H2).
      constructor; [now apply IH|assumption].
Qed.

Theorem matches_lang (r : regex) (s : jsstring) : matches r s = true <-> lang r s.
Proof.
  revert r. induction s as [|c s IH]; intros r; cbn.
  - apply nullable_lang.
  - rewrite IH. apply deriv_lang.
Qed.

Lemma lang_star_class (p : N -> bool) (s : jsstring) :
  lang (Star (Class p)) s <-> Forall (fun c => p c = true) s.
Proof.
  split.
  - induction s as [|c s IH]; intros H; [constructor|].
    apply lang_star_cons_inv in H as (s1 & s2 & -> & H1 & H2).
    apply lang_class_inv in H1 as (c' & E & Hp). injection E as Ec Es. subst c' s1.
    constructor; [assumption|now apply IH].
  - induction 1 as [|c s Hp _ IH]; [constructor|].
    apply (lang_star_cons (Class p) [c] s); [now constructor|assumption].
Qed.

Lemma lang_plus_class (p : N -> bool) (s : jsstring) :
  lang (Plus (Class p)) s <-> s <> [] /\ Forall (fun c => p c = true) s.
Proof.
  unfold Plus. split.
  - intros H. apply lang_cat_inv in H as (s1 & s2 & -> & H1 & H2).
    apply lang_class_inv in H1 as (c & -> & Hp). split; [discriminate|].
    constructor; [assumption|now apply lang_star_class].
  - intros [Hne H]. destruct H as [|c s Hp H]; [contradiction|].
    apply (lang_cat (Class p) (Star (Class p)) [c] s);
      [now constructor|now apply lang_star_class].
Qed.

Lemma lang_chr (a : ascii) (s : jsstring) : lang (chr a) s <-> s = [N_of_ascii a].
Proof.
  unfold chr. split.
  - intros H. apply lang_class_inv in H as (c & -> & Hc).
    apply N.eqb_eq in Hc. now subst.
  - intros ->. constructor. apply N.eqb_refl.
Qed.

End RegexFacts.

Lemma plain_not_space_at (c : N) :
  negb (Regex.is_space c || N.eqb c (N_of_ascii "@")) = true <-> plain c.
Proof.
  unfold plain. rewrite negb_true_iff, orb_false_iff, N.eqb_neq. reflexivity.
Qed.

Lemma lang_not_space_at_plus (s : jsstring) :
  Regex.lang (Regex.Plus Regex.not_space_at) s <-> word s.
Proof.
  unfold Regex.not_space_at, word. rewrite RegexFacts.lang_plus_class.
  split; intros [Hne H]; (split; [assumption|]);
    eapply Forall_impl; try exact H; intros c; apply plain_not_space_at.
Qed.

(** X1. The pattern of both handlers accepts exactly the strings
    [a ++ "@" ++ b ++ "." ++ c] in which [a], [b] and [c] are non-empty and
    hold neither white space nor [@]. *)
Theorem emailRegex_test_shape (s : jsstring) :
  emailRegex_test s = true <-> email_shape s.
Proof.
  unfold emailRegex_test, email_shape. rewrite RegexFacts.matches_lang.
  unfold emailRegex. split.
  - intros H.
    apply RegexFacts.lang_cat_inv in H as (a & s1 & -> & Ha & H).
    apply RegexFacts.lang_cat_inv in H as (at_ & s2 & -> & Hat & H).
    apply RegexFacts.lang_cat_inv in H as (b & s3 & -> & Hb & H).
    apply RegexFacts.lang_cat_inv in H as (dot & c & -> & Hdot & Hc).
    apply RegexFacts.lang_chr in Hat, Hdot. subst at_ dot.
    exists a, b, c. rewrite lang_not_space_at_plus in Ha, Hb, Hc. auto.
  - intros (a & b & c & -> & Ha & Hb & Hc).
    rewrite <- lang_not_space_at_plus in Ha, Hb, Hc.
    repeat (constructor; try assumption); now apply RegexFacts.lang_chr.
Qed.


(** ** Reduction lemmas for the effect monad *)

Lemma jsstring_eqb_refl (a : jsstring) : jsstring_eqb a a = true.
Proof.
  induction a as [|x a IH]; cbn; [reflexivity|].
  now rewrite N.eqb_refl, IH.
Qed.

Lemma jsstring_eqb_eq (a b : jsstring) : jsstring_eqb a b = true <-> a = b.
Proof.
  split; [|intros ->; apply jsstring_eqb_refl].
  revert b; induction a as [|x a IH]; intros [|y b]; cbn; try discriminate; auto.
  intros H. apply andb_true_iff in H as [Hx Hab].
  apply N.eqb_eq in Hx. f_equal; auto.
Qed.

Lemma POST_is_not_OPTIONS : jsstring_eqb (js "POST") (js "OPTIONS") = false.
Proof. vm_compute. reflexivity. Qed.

Lemma missing_undefined : missing JUndefined.
Proof. reflexivity. Qed.

Lemma missing_empty_string : missing (JStr []).
Proof. reflexivity. Qed.

Lemma base_check_missing (req : Request) :
  Exists missing (required_base req) ->
  negb (truthy (firstName req)) || negb (truthy (lastName req))
  || negb (truthy (email req)) || negb (truthy (eventId req))
  || negb (truthy (company req)) = true.
Proof.
  unfold required_base, missing. intros H.
  repeat (apply Exists_cons in H; destruct H as [H|H];
          [rewrite H; cbn; rewrite ?orb_true_r; reflexivity|]).
  now apply Exists_nil in H.
Qed.

Lemma base_check_present (req : Request) :
  Forall present (required_base req) ->
  negb (truthy (firstName req)) || negb (truthy (lastName req))
  || negb (truthy (email req)) || negb (truthy (eventId req))
  || negb (truthy (company req)) = false.
Proof.
  unfold required_base, present. intros H.
  repeat (apply Forall_cons_iff in H; destruct H as [-> H]).
  reflexivity.
Qed.

Lemma extended_check_missing (req : Request) :
  Exists missing (required_extended req) ->
  negb (truthy (firstName req)) || negb (truthy (lastName req))
  || negb (truthy (email req)) || negb (truthy (eventId req))
  || negb (truthy (company req)) || negb (truthy (city req))
  || negb (truthy (region req)) || negb (truthy (zipCode req))
  || negb (truthy (state req)) || negb (truthy (phone req))
  || negb (truthy (jobTitle req)) = true.
Proof.
  unfold required_extended, required_base, missing. cbn [app]. intros H.
  repeat (apply Exists_cons in H; destruct H as [H|H];
          [rewrite H; cbn; rewrite ?orb_true_r; reflexivity|]).
  now apply Exists_nil in H.
Qed.

Lemma extended_check_present (req : Request) :
  Forall present (required_extended req) ->
  negb (truthy (firstName req)) || negb (truthy (lastName req))
  || negb (truthy (email req)) || negb (truthy (eventId req))
  || negb (truthy (company req)) || negb (truthy (city req))
  || negb (truthy (region req)) || negb (truthy (zipCode req))
  || negb (truthy (state req)) || negb (truthy (phone req))
  || negb (truthy (jobTitle req)) = false.
Proof.
  unfold required_extended, required_base, present. cbn [app]. intros H.
  repeat (apply Forall_cons_iff in H; destruct H as [-> H]).
  reflexivity.
Qed.

Lemma jsval_nested_ind (P : jsval -> Prop) :
  P JUndefined -> P JNull -> (forall b, P (JBool b)) -> (forall x, P (JNum x)) ->
  (forall s, P (JStr s)) ->
  (forall items, Forall P items -> P (JArr items)) ->
  (forall ms, Forall (fun kv => P (snd kv)) ms -> P (JObj ms)) ->
  forall v, P v.
Proof.
  intros Hu Hn Hb Hx Hs Ha Ho. fix IH 1.
  intros [| |b|x|s|items|ms];
    [exact Hu|exact Hn|apply Hb|apply Hx|apply Hs| |].
  - apply Ha. induction items as [|x items IHitems]; constructor;
      [apply IH|exact IHitems].
  - apply Ho. induction ms as [|[k x] ms IHms]; constructor;
      [apply IH|exact IHms].
Qed.

(** [ToString] returns exactly on the convertible values. *)
Lemma convertible_converts (rt : Runtime) (v : jsval) :
  convertible v = true <-> converts rt v.
Proof.
  unfold converts. induction v as [| |b|x|s|items IH|ms _] using jsval_nested_ind;
    try (cbn; split; [discriminate|reflexivity]).
  - destruct b; cbn; split; try discriminate; reflexivity.
  - cbn [ToString convertible].
    induction IH as [|x items Hx _ IHitems]; [split; [discriminate|reflexivity]|].
    assert (Helt : convertible x = true
                   <-> match x with
                       | JUndefined | JNull => Some []
                       | _ => ToString rt x
                       end <> None).
    { destruct x; try exact Hx; split; try discriminate; reflexivity. }
    match type of IHitems with
    | ?a items = true <-> ?j items <> None =>
        set (all := a) in *; set (join := j) in *
    end.
    destruct items as [|y items].
    + change (all []) with true. now rewrite andb_true_r.
    + rewrite andb_true_iff, Helt, IHitems.
      destruct (match x with
                | JUndefined | JNull => Some []
                | _ => ToString rt x
                end); destruct (join (y :: items));
        intuition congruence.
  - cbn. destruct (has_own (js "toString") ms); cbn; split; congruence.
Qed.

Lemma sendable_base_zoom_call (rt : Runtime) (req : Request) (tok : jsval) :
  sendable (Base.zoom_call req tok) = true
  <-> converts rt (eventId req) /\ converts rt tok.
Proof.
  unfold sendable. cbn [endpoint authorization Base.zoom_call].
  now rewrite andb_true_iff, !(convertible_converts rt).
Qed.

Lemma sendable_extended_zoom_call (rt : Runtime) (req : Request) (region tok : jsval) :
  sendable (Extended.zoom_call req region tok) = true
  <-> converts rt (eventId req) /\ converts rt tok.
Proof.
  unfold sendable. cbn [endpoint authorization Extended.zoom_call].
  now rewrite andb_true_iff, !(convertible_converts rt).
Qed.

Lemma test_email_returns (rt : Runtime) (req : Request) (b : bool)
    (w : World) (s : ResState) :
  email_test rt req = Some b ->
  test_email rt (email req) w s = (s, Returned b).
Proof.
  unfold email_test, test_email, to_string, bind.
  destruct (ToString rt (email req)) as [str|]; [|discriminate].
  cbn. intros H. now injection H as <-.
Qed.

Lemma test_email_throws (rt : Runtime) (req : Request) (w : World) (s : ResState) :
  email_test rt req = None ->
  test_email rt (email req) w s = (s, Thrown conversion_error).
Proof.
  unfold email_test, test_email, to_string, bind.
  destruct (ToString rt (email req)) as [str|]; [discriminate|reflexivity].
Qed.

Lemma to_string_returns (rt : Runtime) (v : jsval) (w : World) (s : ResState) :
  converts rt v ->
  exists str, ToString rt v = Some str /\ to_string rt v w s = (s, Returned str).
Proof.
  unfold converts, to_string. destruct (ToString rt v) as [str|]; [|contradiction].
  intros _. now exists str.
Qed.

(** ** Validation *)

(** C4. A POST request with a missing required field (the five of the base
    variant, the eleven of the extended variant) is answered with status 500
    and the "Missing required fields" body, and no outbound call is made. *)
Theorem missing_required_field_rejected (rt : Runtime) (w : World) (req : Request) :
  is_POST req ->
  (Exists missing (required_base req) ->
   run (Base.register rt req) w
   = ({| trace := [EvSend 500 missing_fields_body]; headersSent := true |}, Returned tt)
   /\ responses_of (Base.register rt req) w = [(500, missing_fields_body)]
   /\ calls_of (Base.register rt req) w = [])
  /\
  (Exists missing (required_extended req) ->
   run (Extended.register rt req) w
   = ({| trace := [EvSend 500 missing_fields_body]; headersSent := true |}, Returned tt)
   /\ responses_of (Extended.register rt req) w = [(500, missing_fields_body)]
   /\ calls_of (Extended.register rt req) w = []).
Proof.
  unfold is_POST. intros Hm. split; intros Hx.
  - assert (E : run (Base.register rt req) w
                = ({| trace := [EvSend 500 missing_fields_body]; headersSent := true |},
                   Returned tt)).
    { unfold run, Base.register.
      rewrite Hm, jsstring_eqb_refl, (base_check_missing req Hx). reflexivity. }
    unfold responses_of, calls_of. rewrite E. repeat split.
  - assert (E : run (Extended.register rt req) w
                = ({| trace := [EvSend 500 missing_fields_body]; headersSent := true |},
                   Returned tt)).
    { unfold run, Extended.register, Extended.cors, Extended.callback.
      rewrite Hm, POST_is_not_OPTIONS, jsstring_eqb_refl.
      unfold try_catch. rewrite (extended_check_missing req Hx). reflexivity. }
    unfold responses_of, calls_of. rewrite E. repeat split.
Qed.

Lemma missing_required_field_rejected_witness :
  let req := with_eventId JUndefined Example.valid_request in
  let body := JObj [(js "message", JStr (js "Request Error"));
                    (js "info", JStr (js "Missing required fields"));
                    (js "errorAt", JStr (js "requestBody"))] in
  (responses_of (Base.register Example.runtime req) Example.all_ok = [(500, body)]
   /\ calls_of (Base.register Example.runtime req) Example.all_ok = [])
  /\
  (responses_of (Extended.register Example.runtime req) Example.all_ok = [(500, body)]
   /\ calls_of (Extended.register Example.runtime req) Example.all_ok = []).
Proof.
  intros req body.
  destruct (missing_required_field_rejected Example.runtime Example.all_ok req eq_refl)
    as [Hbase Hext].
  split.
  - apply Hbase. apply Exists_exists. exists JUndefined.
    split; [cbn; auto 10 | reflexivity].
  - apply Hext. apply Exists_exists. exists JUndefined.
    split; [cbn; auto 10 | reflexivity].
Defined.




(** ** The stages of a registration *)

Lemma getZoomAccessToken_run (rt : Runtime) (w : World) (s : ResState) :
  getZoomAccessToken rt w s = (emit (EvFetch token_call) s, token_outcome rt w).
Proof.
  unfold token_outcome, run, getZoomAccessToken, bind, fetch.
  destruct (w token_call) as [e|r]; [reflexivity|].
  destruct (negb (ok r)); [reflexivity|].
  unfold json. destruct (JSON_parse rt (text r)) as [data|]; [|reflexivity].
  unfold ret, prop. destruct (get_prop data (js "access_token")); reflexivity.
Qed.

(** Token acquisition fails exactly when the token endpoint is unreachable,
    answers with a status outside 200..299, or answers with a body that
    has no readable [access_token]. *)
Lemma token_outcome_not_ok (rt : Runtime) (w : World) (r : Response) :
  answers w token_call r -> ok r = false ->
  token_outcome rt w
  = Thrown (new_Error (js "Failed to fetch Zoom access token: " ++ text r)).
Proof.
  unfold answers, token_outcome, run, getZoomAccessToken, bind, fetch.
  intros [_ ->] Hok. now rewrite Hok.
Qed.

Lemma token_outcome_ok (rt : Runtime) (w : World) (r : Response) (data tok : jsval) :
  answers w token_call r -> ok r = true ->
  JSON_parse rt (text r) = Some data ->
  get_prop data (js "access_token") = Some tok ->
  token_outcome rt w = Returned tok.
Proof.
  unfold answers, token_outcome, run, getZoomAccessToken, bind, fetch, json, prop.
  intros [_ ->] Hok Hp Hg. now rewrite Hok, Hp; cbn; rewrite Hg.
Qed.

Lemma base_register_valid (rt : Runtime) (req : Request) :
  valid_base rt req ->
  forall w s,
    Base.register rt req w s
    = try_catch (Base.attempt rt req) (Base.on_error rt) w s.
Proof.
  intros (Hm & Hp & He) w s. unfold Base.register, bind.
  rewrite Hm, jsstring_eqb_refl, (base_check_present req Hp).
  cbn [negb]. rewrite (test_email_returns rt req true w s He). reflexivity.
Qed.

(** The base handler tests the e-mail before its [try] block: when the
    conversion of the e-mail throws, nothing catches the error. *)
Lemma base_register_unconvertible (rt : Runtime) (w : World) (req : Request) :
  is_POST req -> Forall present (required_base req) -> email_test rt req = None ->
  run (Base.register rt req) w = (fresh, Thrown conversion_error).
Proof.
  unfold is_POST. intros Hm Hp He. unfold run, Base.register, bind.
  rewrite Hm, jsstring_eqb_refl, (base_check_present req Hp). cbn [negb].
  now rewrite (test_email_throws rt req w fresh He).
Qed.

Lemma extended_register_valid (rt : Runtime) (req : Request) :
  valid_extended rt req ->
  forall w s,
    Extended.register rt req w s
    = try_catch
        (try_catch (Extended.attempt rt req (Extended.normalized_region req))
                   (Extended.on_error rt))
        (Extended.on_err) w s.
Proof.
  intros (Hm & Hp & He) w s.
  unfold Extended.register, Extended.cors, Extended.callback.
  rewrite Hm, POST_is_not_OPTIONS, jsstring_eqb_refl.
  unfold try_catch at 1 3. unfold bind.
  rewrite (extended_check_present req Hp).
  cbn [negb]. rewrite (test_email_returns rt req true w s He). reflexivity.
Qed.

(** The inner handler of the extended variant always answers, so the outer
    [catch] never runs on a fresh response object. *)
Lemma extended_on_error_run (rt : Runtime) (e : exn) (w : World) (tr : list Event) :
  Extended.on_error rt e w {| trace := tr; headersSent := false |}
  = ({| trace := tr ++ [EvSet (js "Access-Control-Allow-Origin") (js "*");
                        EvSend 500 (error_body rt e)];
        headersSent := true |}, Returned tt).
Proof.
  unfold Extended.on_error, Extended.allow_origin, bind, res_set, res_send, emit.
  cbn. now rewrite <- app_assoc.
Qed.

Lemma base_on_error_run (rt : Runtime) (e : exn) (w : World) (tr : list Event) :
  Base.on_error rt e w {| trace := tr; headersSent := false |}
  = ({| trace := tr ++ [EvSend 500 (error_body rt e)]; headersSent := true |},
     Returned tt).
Proof. reflexivity. Qed.

Section BaseStages.

Variables (rt : Runtime) (w : World) (req : Request).

Lemma base_attempt_token_fails (e : exn) :
  token_outcome rt w = Thrown e ->
  Base.attempt rt req w fresh
  = ({| trace := [EvFetch token_call]; headersSent := false |}, Thrown e).
Proof.
  intros Ht. unfold Base.attempt, bind.
  rewrite getZoomAccessToken_run, Ht. reflexivity.
Qed.

(** The registrant call cannot be built: the event id or the token does
    not convert to a string. *)
Lemma base_attempt_unconvertible (tok : jsval) :
  token_outcome rt w = Returned tok ->
  ToString rt (eventId req) = None \/ ToString rt tok = None ->
  Base.attempt rt req w fresh
  = ({| trace := [EvFetch token_call]; headersSent := false |},
     Thrown conversion_error).
Proof.
  intros Ht H. unfold Base.attempt, bind.
  rewrite getZoomAccessToken_run, Ht. unfold to_string.
  destruct (ToString rt (eventId req)) as [id|]; [|reflexivity].
  destruct H as [H|H]; [discriminate H|]. rewrite H. reflexivity.
Qed.

(** Once the registrant call can be built, the attempt continues with it. *)
Lemma base_attempt_converts (tok : jsval) :
  token_outcome rt w = Returned tok ->
  converts rt (eventId req) -> converts rt tok ->
  Base.attempt rt req w fresh
  = bind (fetch (Base.zoom_call req tok))
      (fun zoomResponse =>
         if negb (ok zoomResponse) then
           throw (api_error "Zoom API error: " "zoom" (text zoomResponse))
         else
           bind (json rt zoomResponse) (fun zoomData =>
           bind (prop zoomData (js "join_url")) (fun join_url =>
           bind (res_send 200 (success_body join_url)) (fun _ =>
           bind (fetch (Base.mailchimp_call req)) (fun mailchimpResponse =>
           if negb (ok mailchimpResponse) && negb (status mailchimpResponse =? 400)
           then throw (api_error "Mailchimp API error: " "mailchimp"
                         (text mailchimpResponse))
           else ret tt)))))
      w (emit (EvFetch token_call) fresh).
Proof.
  intros Ht Hid Htok. unfold Base.attempt.
  unfold bind at 1. rewrite getZoomAccessToken_run, Ht.
  unfold bind at 1.
  destruct (to_string_returns rt (eventId req) w (emit (EvFetch token_call) fresh) Hid)
    as (id & _ & ->).
  unfold bind at 1.
  destruct (to_string_returns rt tok w (emit (EvFetch token_call) fresh) Htok)
    as (t & _ & ->).
  reflexivity.
Qed.

Lemma base_attempt_zoom_fails (tok : jsval) (r : Response) :
  token_outcome rt w = Returned tok ->
  answers w (Base.zoom_call req tok) r -> ok r = false ->
  Base.attempt rt req w fresh
  = ({| trace := [EvFetch token_call; EvFetch (Base.zoom_call req tok)];
        headersSent := false |},
     Thrown (api_error "Zoom API error: " "zoom" (text r))).
Proof.
  intros Ht [Hs Hz] Hok.
  apply (sendable_base_zoom_call rt) in Hs as [Hid Htok].
  rewrite (base_attempt_converts tok Ht Hid Htok).
  unfold bind, fetch. rewrite Hz, Hok. reflexivity.
Qed.

(** After a successful registrant creation: 200 is sent, then the list is
    synchronised. *)
Lemma base_attempt_zoom_ok (tok : jsval) (r : Response) (zoomData join_url : jsval) :
  token_outcome rt w = Returned tok ->
  answers w (Base.zoom_call req tok) r -> ok r = true ->
  JSON_parse rt (text r) = Some zoomData ->
  get_prop zoomData (js "join_url") = Some join_url ->
  Base.attempt rt req w fresh
  = ({| trace := [EvFetch token_call; EvFetch (Base.zoom_call req tok);
                  EvSend 200 (success_body join_url);
                  EvFetch (Base.mailchimp_call req)];
        headersSent := true |},
     match w (Base.mailchimp_call req) with
     | Rejected e => Thrown e
     | Resolved m =>
         if negb (ok m) && negb (status m =? 400)
         then Thrown (api_error "Mailchimp API error: " "mailchimp" (text m))
         else Returned tt
     end).
Proof.
  intros Ht [Hs Hz] Hok Hp Hg.
  apply (sendable_base_zoom_call rt) in Hs as [Hid Htok].
  rewrite (base_attempt_converts tok Ht Hid Htok).
  unfold bind. unfold fetch at 1. rewrite Hz, Hok.
  unfold json, prop. rewrite Hp. cbn. rewrite Hg. cbn.
  destruct (w (Base.mailchimp_call req)) as [e|m]; [reflexivity|].
  destruct (negb (ok m) && negb (status m =? 400)); reflexivity.
Qed.

End BaseStages.

Section ExtendedStages.

Variables (rt : Runtime) (w : World) (req : Request) (region : jsval).

Lemma extended_attempt_token_fails (e : exn) :
  token_outcome rt w = Thrown e ->
  Extended.attempt rt req region w fresh
  = ({| trace := [EvFetch token_call]; headersSent := false |}, Thrown e).
Proof.
  intros Ht. unfold Extended.attempt, bind.
  rewrite getZoomAccessToken_run, Ht. reflexivity.
Qed.

Lemma extended_attempt_unconvertible (tok : jsval) :
  token_outcome rt w = Returned tok ->
  ToString rt (eventId req) = None \/ ToString rt tok = None ->
  Extended.attempt rt req region w fresh
  = ({| trace := [EvFetch token_call]; headersSent := false |},
     Thrown conversion_error).
Proof.
  intros Ht H. unfold Extended.attempt, bind.
  rewrite getZoomAccessToken_run, Ht. unfold to_string.
  destruct (ToString rt (eventId req)) as [id|]; [|reflexivity].
  destruct H as [H|H]; [discriminate H|]. rewrite H. reflexivity.
Qed.

Lemma extended_attempt_converts (tok : jsval) :
  token_outcome rt w = Returned tok ->
  converts rt (eventId req) -> converts rt tok ->
  Extended.attempt rt req region w fresh
  = bind (fetch (Extended.zoom_call req region tok))
      (fun zoomResponse =>
         if negb (ok zoomResponse) then
           throw (api_error "Zoom API error: " "zoom" (text zoomResponse))
         else
           bind (json rt zoomResponse) (fun zoomData =>
           bind (fetch (Extended.mailchimp_call MAILCHIMP_LIST_ID req region))
             (fun mailchimpResponse =>
           bind (fetch (Extended.mailchimp_call MAILCHIMP_LIST_ID_2 req region))
             (fun mailchimpResponse2 =>
           if negb (ok mailchimpResponse2) && negb (status mailchimpResponse2 =? 200)
           then throw (api_error "Mailchimp 2 List API error: " "mailchimp 2"
                         (text mailchimpResponse2))
           else if negb (ok mailchimpResponse) && negb (status mailchimpResponse =? 200)
           then throw (api_error "Mailchimp 1 List API error: " "mailchimp 1"
                         (text mailchimpResponse))
           else
             bind Extended.allow_origin (fun _ =>
             bind (prop zoomData (js "join_url")) (fun join_url =>
             res_send 200 (success_body join_url)))))))
      w (emit (EvFetch token_call) fresh).
Proof.
  intros Ht Hid Htok. unfold Extended.attempt.
  unfold bind at 1. rewrite getZoomAccessToken_run, Ht.
  unfold bind at 1.
  destruct (to_string_returns rt (eventId req) w (emit (EvFetch token_call) fresh) Hid)
    as (id & _ & ->).
  unfold bind at 1.
  destruct (to_string_returns rt tok w (emit (EvFetch token_call) fresh) Htok)
    as (t & _ & ->).
  reflexivity.
Qed.

Lemma extended_attempt_zoom_fails (tok : jsval) (r : Response) :
  token_outcome rt w = Returned tok ->
  answers w (Extended.zoom_call req region tok) r -> ok r = false ->
  Extended.attempt rt req region w fresh
  = ({| trace := [EvFetch token_call; EvFetch (Extended.zoom_call req region tok)];
        headersSent := false |},
     Thrown (api_error "Zoom API error: " "zoom" (text r))).
Proof.
  intros Ht [Hs Hz] Hok.
  apply (sendable_extended_zoom_call rt) in Hs as [Hid Htok].
  rewrite (extended_attempt_converts tok Ht Hid Htok).
  unfold bind, fetch. rewrite Hz, Hok. reflexivity.
Qed.

(** After a successful registrant creation both lists are called, then the
    second list's response is examined, then the first one's. *)
Lemma extended_attempt_lists (tok : jsval) (r m1 m2 : Response) (zoomData : jsval) :
  token_outcome rt w = Returned tok ->
  answers w (Extended.zoom_call req region tok) r -> ok r = true ->
  JSON_parse rt (text r) = Some zoomData ->
  answers w (Extended.mailchimp_call MAILCHIMP_LIST_ID req region) m1 ->
  answers w (Extended.mailchimp_call MAILCHIMP_LIST_ID_2 req region) m2 ->
  let fetched :=
    [EvFetch token_call; EvFetch (Extended.zoom_call req region tok);
     EvFetch (Extended.mailchimp_call MAILCHIMP_LIST_ID req region);
     EvFetch (Extended.mailchimp_call MAILCHIMP_LIST_ID_2 req region)] in
  Extended.attempt rt req region w fresh
  = if negb (ok m2) && negb (status m2 =? 200) then
      ({| trace := fetched; headersSent := false |},
       Thrown (api_error "Mailchimp 2 List API error: " "mailchimp 2" (text m2)))
    else if negb (ok m1) && negb (status m1 =? 200) then
      ({| trace := fetched; headersSent := false |},
       Thrown (api_error "Mailchimp 1 List API error: " "mailchimp 1" (text m1)))
    else
      match get_prop zoomData (js "join_url") with
      | Some join_url =>
          ({| trace := fetched ++ [EvSet (js "Access-Control-Allow-Origin") (js "*");
                                   EvSend 200 (success_body join_url)];
              headersSent := true |}, Returned tt)
      | None =>
          ({| trace := fetched ++ [EvSet (js "Access-Control-Allow-Origin") (js "*")];
              headersSent := false |}, Thrown type_error)
      end.
Proof.
  cbv zeta. intros Ht [Hs Hz] Hok Hp [_ H1] [_ H2].
  apply (sendable_extended_zoom_call rt) in Hs as [Hid Htok].
  rewrite (extended_attempt_converts tok Ht Hid Htok).
  unfold bind, fetch. rewrite Hz, Hok.
  unfold json. rewrite Hp. cbn. rewrite H1, H2.
  destruct (negb (ok m2) && negb (status m2 =? 200)); [reflexivity|].
  destruct (negb (ok m1) && negb (status m1 =? 200)); [reflexivity|].
  unfold prop. cbn. destruct (get_prop zoomData (js "join_url")); reflexivity.
Qed.

End ExtendedStages.

(** A response whose status is in 200..299 never has status 400, and one
    with status 200 is always [ok]: the second test of the extended
    variant's guards, [status !== 200], never changes their value. *)
Lemma status_200_is_ok (r : Response) : status r = 200 -> ok r = true.
Proof. unfold ok. intros ->. reflexivity. Qed.

Lemma extended_guard_is_not_ok (r : Response) :
  negb (ok r) && negb (status r =? 200) = negb (ok r).
Proof.
  destruct (status r =? 200) eqn:E.
  - apply Z.eqb_eq in E. now rewrite (status_200_is_ok r E).
  - now rewrite andb_true_r.
Qed.

Lemma status_400_not_ok (r : Response) : status r = 400 -> ok r = false.
Proof. unfold ok. intros ->. reflexivity. Qed.

Lemma errorAt_error_body (rt : Runtime) (e : exn) :
  errorAt (error_body rt e) = Some (e_type e).
Proof. reflexivity. Qed.

Lemma info_error_body (rt : Runtime) (e : exn) :
  info (error_body rt e) = Some (errorInfo rt e).
Proof. reflexivity. Qed.

Lemma valid_request_valid_base : valid_base Example.runtime Example.valid_request.
Proof. repeat split; repeat constructor. Qed.

Lemma valid_request_valid_extended : valid_extended Example.runtime Example.valid_request.
Proof. repeat split; repeat constructor. Qed.

(** ** Order of the stages *)

(** C6. A failure at an earlier stage prevents all later outbound calls.
    When token acquisition fails, the token call is the only call issued.
    When the registrant endpoint answers with a status outside 200..299,
    no list call is issued and the response is a 500 whose [errorAt] is
    ["zoom"].  Both variants. *)
Theorem earlier_failure_prevents_later_calls (rt : Runtime) (w : World) (req : Request) :
  (forall e, token_outcome rt w = Thrown e ->
     (valid_base rt req ->
      calls_of (Base.register rt req) w = [token_call])
     /\
     (valid_extended rt req ->
      calls_of (Extended.register rt req) w = [token_call]))
  /\
  (forall tok r, token_outcome rt w = Returned tok -> ok r = false ->
     (valid_base rt req ->
      answers w (Base.zoom_call req tok) r ->
      calls_of (Base.register rt req) w = [token_call; Base.zoom_call req tok]
      /\ exists body,
           responses_of (Base.register rt req) w = [(500, body)]
           /\ errorAt body = Some (JStr (js "zoom")))
     /\
     (valid_extended rt req ->
      answers w (Extended.zoom_call req (Extended.normalized_region req) tok) r ->
      calls_of (Extended.register rt req) w
      = [token_call; Extended.zoom_call req (Extended.normalized_region req) tok]
      /\ exists body,
           responses_of (Extended.register rt req) w = [(500, body)]
           /\ errorAt body = Some (JStr (js "zoom")))).
Proof.
  split.
  - intros e Ht. split; intros Hv.
    + unfold calls_of, run. rewrite (base_register_valid rt req Hv).
      unfold try_catch. rewrite (base_attempt_token_fails rt w req e Ht).
      reflexivity.
    + unfold calls_of, run. rewrite (extended_register_valid rt req Hv).
      unfold try_catch. rewrite (extended_attempt_token_fails rt w req _ e Ht).
      rewrite extended_on_error_run. reflexivity.
  - intros tok r Ht Hok. split; intros Hv Hz.
    + unfold calls_of, responses_of, run. rewrite (base_register_valid rt req Hv).
      unfold try_catch. rewrite (base_attempt_zoom_fails rt w req tok r Ht Hz Hok).
      rewrite base_on_error_run. split; [reflexivity|].
      eexists. split; [reflexivity|]. apply errorAt_error_body.
    + unfold calls_of, responses_of, run. rewrite (extended_register_valid rt req Hv).
      unfold try_catch.
      rewrite (extended_attempt_zoom_fails rt w req _ tok r Ht Hz Hok).
      rewrite extended_on_error_run. split; [reflexivity|].
      eexists. split; [reflexivity|]. apply errorAt_error_body.
Qed.

Lemma earlier_failure_prevents_later_calls_witness :
  let req := Example.valid_request in
  let no_token :=
    Example.world (Example.reply 401 "{'reason':'Invalid client_id or client_secret'}")
      Example.zoom_ok Example.list_ok Example.list_ok in
  let no_registrant :=
    Example.world Example.token_ok
      (Example.reply 404 "{'code':'3001','message':'Webinar does not exist.'}")
      Example.list_ok Example.list_ok in
  (calls_of (Base.register Example.runtime req) no_token = [token_call]
   /\ calls_of (Extended.register Example.runtime req) no_token = [token_call])
  /\
  ((calls_of (Base.register Example.runtime req) no_registrant
    = [token_call; Base.zoom_call req (Example.str "tok")]
    /\ exists body,
         responses_of (Base.register Example.runtime req) no_registrant = [(500, body)]
         /\ errorAt body = Some (JStr (js "zoom")))
   /\
   (calls_of (Extended.register Example.runtime req) no_registrant
    = [token_call; Extended.zoom_call req (Example.str "France") (Example.str "tok")]
    /\ exists body,
         responses_of (Extended.register Example.runtime req) no_registrant = [(500, body)]
         /\ errorAt body = Some (JStr (js "zoom")))).
Proof.
  intros req no_token no_registrant. split.
  - destruct (earlier_failure_prevents_later_calls Example.runtime no_token req)
      as [Htoken _].
    destruct (Htoken _ eq_refl) as [Hbase Hext].
    split; [apply Hbase, valid_request_valid_base
           |apply Hext, valid_request_valid_extended].
  - destruct (earlier_failure_prevents_later_calls Example.runtime no_registrant req)
      as [_ Hzoom].
    destruct (Hzoom (Example.str "tok")
                {| status := 404;
                   text := Example.jsq "{'code':'3001','message':'Webinar does not exist.'}" |}
                eq_refl eq_refl) as [Hbase Hext].
    split; [apply Hbase; [apply valid_request_valid_base | split; reflexivity]
           |apply Hext; [apply valid_request_valid_extended | split; reflexivity]].
Defined.

(** ** Success *)

(** C7. When token acquisition, registrant creation and every list call of
    the variant succeed, the only response is 200 and its body is the
    object with exactly two members: [message], the string
    ["Registration successful"], and [join_url], the [join_url] member of
    the registrant endpoint's JSON body, as it is. *)
Theorem successful_registration_returns_join_url
    (rt : Runtime) (w : World) (req : Request)
    (tok : jsval) (r : Response) (zoomData join_url : jsval) :
  token_outcome rt w = Returned tok ->
  ok r = true ->
  JSON_parse rt (text r) = Some zoomData ->
  get_prop zoomData (js "join_url") = Some join_url ->
  (valid_base rt req ->
   answers w (Base.zoom_call req tok) r ->
   forall m, answers w (Base.mailchimp_call req) m -> ok m = true ->
   responses_of (Base.register rt req) w
   = [(200, JObj [(js "message", JStr (js "Registration successful"));
                  (js "join_url", join_url)])]
   /\ snd (run (Base.register rt req) w) = Returned tt)
  /\
  (valid_extended rt req ->
   answers w (Extended.zoom_call req (Extended.normalized_region req) tok) r ->
   forall m1 m2,
   answers w (Extended.mailchimp_call MAILCHIMP_LIST_ID req
                (Extended.normalized_region req)) m1 ->
   answers w (Extended.mailchimp_call MAILCHIMP_LIST_ID_2 req
                (Extended.normalized_region req)) m2 ->
   ok m1 = true -> ok m2 = true ->
   responses_of (Extended.register rt req) w
   = [(200, JObj [(js "message", JStr (js "Registration successful"));
                  (js "join_url", join_url)])]
   /\ snd (run (Extended.register rt req) w) = Returned tt).
Proof.
  intros Ht Hok Hp Hg. split.
  - intros Hv Hz m [_ Hm] Hokm. unfold responses_of, run.
    rewrite (base_register_valid rt req Hv). unfold try_catch.
    rewrite (base_attempt_zoom_ok rt w req tok r zoomData join_url Ht Hz Hok Hp Hg).
    rewrite Hm, Hokm. split; reflexivity.
  - intros Hv Hz m1 m2 H1 H2 Hok1 Hok2. unfold responses_of, run.
    rewrite (extended_register_valid rt req Hv). unfold try_catch.
    rewrite (extended_attempt_lists rt w req _ tok r m1 m2 zoomData Ht Hz Hok Hp H1 H2).
    rewrite Hok1, Hok2, Hg. split; reflexivity.
Qed.

Lemma successful_registration_returns_join_url_witness :
  let req := Example.valid_request in
  let url := Example.str "https://zoom.example/j/1" in
  responses_of (Base.register Example.runtime req) Example.all_ok
  = [(200, JObj [(js "message", JStr (js "Registration successful"));
                 (js "join_url", url)])]
  /\ responses_of (Extended.register Example.runtime req) Example.all_ok
     = [(200, JObj [(js "message", JStr (js "Registration successful"));
                    (js "join_url", url)])].
Proof.
  intros req url.
  destruct (successful_registration_returns_join_url
              Example.runtime Example.all_ok req (Example.str "tok")
              {| status := 201;
                 text := Example.jsq "{'join_url':'https://zoom.example/j/1'}" |}
              (JObj [(js "join_url", url)]) url
              eq_refl eq_refl eq_refl eq_refl) as [Hbase Hext].
  split.
  - apply (Hbase valid_request_valid_base (conj eq_refl eq_refl)
             {| status := 200; text := Example.jsq "{'id':'m1'}" |}
             (conj eq_refl eq_refl) eq_refl).
  - apply (Hext valid_request_valid_extended (conj eq_refl eq_refl)
             {| status := 200; text := Example.jsq "{'id':'m1'}" |}
             {| status := 200; text := Example.jsq "{'id':'m1'}" |}
             (conj eq_refl eq_refl) (conj eq_refl eq_refl) eq_refl eq_refl).
Defined.

(** ** Mailing lists *)

(** C9. In the extended variant, when both list endpoints answer with a
    status outside 200..299 (which excludes the status 200 that the guards
    exempt), the response is the 500 built from the second list's answer:
    its [errorAt] is ["mailchimp 2"]. *)
Theorem second_list_failure_reported_first
    (rt : Runtime) (w : World) (req : Request)
    (tok : jsval) (r m1 m2 : Response) (zoomData : jsval) :
  valid_extended rt req ->
  token_outcome rt w = Returned tok ->
  answers w (Extended.zoom_call req (Extended.normalized_region req) tok) r ->
  ok r = true ->
  JSON_parse rt (text r) = Some zoomData ->
  answers w (Extended.mailchimp_call MAILCHIMP_LIST_ID req
               (Extended.normalized_region req)) m1 ->
  answers w (Extended.mailchimp_call MAILCHIMP_LIST_ID_2 req
               (Extended.normalized_region req)) m2 ->
  ok m1 = false ->
  ok m2 = false ->
  responses_of (Extended.register rt req) w
  = [(500, error_body rt
             (api_error "Mailchimp 2 List API error: " "mailchimp 2" (text m2)))]
  /\ errorAt (error_body rt
                (api_error "Mailchimp 2 List API error: " "mailchimp 2" (text m2)))
     = Some (JStr (js "mailchimp 2")).
Proof.
  intros Hv Ht Hz Hok Hp H1 H2 Hok1 Hok2. split; [|reflexivity].
  unfold responses_of, run.
  rewrite (extended_register_valid rt req Hv). unfold try_catch.
  rewrite (extended_attempt_lists rt w req _ tok r m1 m2 zoomData Ht Hz Hok Hp H1 H2).
  rewrite extended_guard_is_not_ok, Hok2. cbn [negb].
  rewrite extended_on_error_run. reflexivity.
Qed.

Lemma second_list_failure_reported_first_witness :
  let w :=
    Example.world Example.token_ok Example.zoom_ok
      (Example.reply 500 "list one is down") (Example.reply 503 "list two is down") in
  exists body,
    responses_of (Extended.register Example.runtime Example.valid_request) w
    = [(500, body)]
    /\ errorAt body = Some (JStr (js "mailchimp 2"))
    /\ info body = Some (Example.str "list two is down").
Proof.
  intros w. eexists.
  destruct (second_list_failure_reported_first
              Example.runtime w Example.valid_request (Example.str "tok")
              {| status := 201;
                 text := Example.jsq "{'join_url':'https://zoom.example/j/1'}" |}
              {| status := 500; text := Example.jsq "list one is down" |}
              {| status := 503; text := Example.jsq "list two is down" |}
              (JObj [(js "join_url", Example.str "https://zoom.example/j/1")])
              valid_request_valid_extended eq_refl (conj eq_refl eq_refl)
              eq_refl eq_refl (conj eq_refl eq_refl) (conj eq_refl eq_refl)
              eq_refl eq_refl)
    as [Hresp Htag].
  split; [exact Hresp|]. split; [exact Htag|]. vm_compute. reflexivity.
Defined.

(** X2. Status 400 is Mailchimp's answer for an address that is already on
    the list ("Member Exists").  The base variant lets it pass: the handler
    returns normally and the 200 sent before stays the only response. *)
Lemma base_member_exists_tolerated
    (rt : Runtime) (w : World) (req : Request)
    (tok : jsval) (r m : Response) (zoomData join_url : jsval) :
  valid_base rt req ->
  token_outcome rt w = Returned tok ->
  answers w (Base.zoom_call req tok) r -> ok r = true ->
  JSON_parse rt (text r) = Some zoomData ->
  get_prop zoomData (js "join_url") = Some join_url ->
  answers w (Base.mailchimp_call req) m -> status m = 400 ->
  run (Base.register rt req) w
  = ({| trace := [EvFetch token_call; EvFetch (Base.zoom_call req tok);
                  EvSend 200 (success_body join_url);
                  EvFetch (Base.mailchimp_call req)];
        headersSent := true |}, Returned tt).
Proof.
  intros Hv Ht Hz Hok Hp Hg [_ Hm] H400. unfold run.
  rewrite (base_register_valid rt req Hv). unfold try_catch.
  rewrite (base_attempt_zoom_ok rt w req tok r zoomData join_url Ht Hz Hok Hp Hg).
  rewrite Hm, H400, andb_false_r. reflexivity.
Qed.

Lemma base_member_exists_tolerated_witness :
  run (Base.register Example.runtime Example.valid_request)
      (Example.world Example.token_ok Example.zoom_ok
         Example.member_exists Example.list_ok)
  = ({| trace := [EvFetch token_call;
                  EvFetch (Base.zoom_call Example.valid_request (Example.str "tok"));
                  EvSend 200 (success_body (Example.str "https://zoom.example/j/1"));
                  EvFetch (Base.mailchimp_call Example.valid_request)];
        headersSent := true |}, Returned tt).
Proof.
  apply (base_member_exists_tolerated
           Example.runtime
           (Example.world Example.token_ok Example.zoom_ok
              Example.member_exists Example.list_ok)
           Example.valid_request (Example.str "tok")
           {| status := 201;
              text := Example.jsq "{'join_url':'https://zoom.example/j/1'}" |}
           {| status := 400; text := Example.jsq "{'title':'Member Exists'}" |}
           (JObj [(js "join_url", Example.str "https://zoom.example/j/1")])
           (Example.str "https://zoom.example/j/1")
           valid_request_valid_base eq_refl (conj eq_refl eq_refl)
           eq_refl eq_refl eq_refl (conj eq_refl eq_refl) eq_refl).
Defined.

(** The extended variant exempts status 200 instead, which is never a
    failure, so the same answer on either list aborts with a 500. *)
Lemma extended_member_exists_fatal
    (rt : Runtime) (w : World) (req : Request)
    (tok : jsval) (r m1 m2 : Response) (zoomData : jsval) :
  valid_extended rt req ->
  token_outcome rt w = Returned tok ->
  answers w (Extended.zoom_call req (Extended.normalized_region req) tok) r ->
  ok r = true ->
  JSON_parse rt (text r) = Some zoomData ->
  answers w (Extended.mailchimp_call MAILCHIMP_LIST_ID req
               (Extended.normalized_region req)) m1 ->
  answers w (Extended.mailchimp_call MAILCHIMP_LIST_ID_2 req
               (Extended.normalized_region req)) m2 ->
  (status m2 = 400 ->
   responses_of (Extended.register rt req) w
   = [(500, error_body rt
              (api_error "Mailchimp 2 List API error: " "mailchimp 2" (text m2)))])
  /\
  (status m1 = 400 -> ok m2 = true ->
   responses_of (Extended.register rt req) w
   = [(500, error_body rt
              (api_error "Mailchimp 1 List API error: " "mailchimp 1" (text m1)))]).
Proof.
  intros Hv Ht Hz Hok Hp H1 H2.
  assert (E := extended_attempt_lists rt w req _ tok r m1 m2 zoomData Ht Hz Hok Hp H1 H2).
  cbv zeta in E. rewrite !extended_guard_is_not_ok in E.
  split.
  - intros H400. rewrite (status_400_not_ok m2 H400) in E. cbn [negb] in E.
    unfold responses_of, run.
    rewrite (extended_register_valid rt req Hv). unfold try_catch.
    rewrite E, extended_on_error_run. reflexivity.
  - intros H400 Hok2. rewrite (status_400_not_ok m1 H400), Hok2 in E. cbn [negb] in E.
    unfold responses_of, run.
    rewrite (extended_register_valid rt req Hv). unfold try_catch.
    rewrite E, extended_on_error_run. reflexivity.
Qed.

(** C1. An "already a member" answer (status 400, "Member Exists") from a
    list is meant to count as success.  The base variant does so; the
    extended variant answers 500 with the list's tag, for the first list
    and for the second. *)
Theorem member_exists_aborts_extended_variant :
  let req := Example.valid_request in
  let dup_on_list1 :=
    Example.world Example.token_ok Example.zoom_ok Example.member_exists Example.list_ok in
  let dup_on_list2 :=
    Example.world Example.token_ok Example.zoom_ok Example.list_ok Example.member_exists in
  (responses_of (Base.register Example.runtime req) dup_on_list1
   = [(200, success_body (Example.str "https://zoom.example/j/1"))]
   /\ snd (run (Base.register Example.runtime req) dup_on_list1) = Returned tt)
  /\
  (exists body,
     responses_of (Extended.register Example.runtime req) dup_on_list1 = [(500, body)]
     /\ errorAt body = Some (JStr (js "mailchimp 1")))
  /\
  (exists body,
     responses_of (Extended.register Example.runtime req) dup_on_list2 = [(500, body)]
     /\ errorAt body = Some (JStr (js "mailchimp 2"))).
Proof.
  cbv zeta. split; [|split].
  - vm_compute. split; reflexivity.
  - eexists. split; vm_compute; reflexivity.
  - eexists. split; vm_compute; reflexivity.
Qed.

(** ** Error responses *)

(** What [info] holds for an error built from a provider's response: the
    [message] member of the body read as JSON when there is a truthy one,
    the body itself otherwise. *)
Lemma errorInfo_message (rt : Runtime) (p t : string) (body : jsstring) (v m : jsval) :
  JSON_parse rt body = Some v ->
  get_prop v (js "message") = Some m -> truthy m = true ->
  errorInfo rt (api_error p t body) = m.
Proof. unfold errorInfo. cbn. intros -> -> ->. reflexivity. Qed.

Lemma errorInfo_raw_text (rt : Runtime) (p t : string) (body : jsstring) :
  JSON_parse rt body = None ->
  errorInfo rt (api_error p t body) = JStr body.
Proof. unfold errorInfo. cbn. intros ->. reflexivity. Qed.

(** The error thrown by [getZoomAccessToken] has neither [type] nor
    [text]: the provider's body is only part of its message, which the
    handlers do not read. *)
Lemma token_failure_response (rt : Runtime) (w : World) (req : Request) (r : Response) :
  answers w token_call r -> ok r = false ->
  let body := JObj [(js "message", JStr (js "Internal Server Error"));
                    (js "info", JUndefined);
                    (js "errorAt", JUndefined)] in
  (valid_base rt req -> responses_of (Base.register rt req) w = [(500, body)])
  /\
  (valid_extended rt req -> responses_of (Extended.register rt req) w = [(500, body)]).
Proof.
  intros Ha Hok body.
  pose proof (token_outcome_not_ok rt w r Ha Hok) as Ht.
  split; intros Hv; unfold responses_of, run.
  - rewrite (base_register_valid rt req Hv). unfold try_catch.
    rewrite (base_attempt_token_fails rt w req _ Ht). reflexivity.
  - rewrite (extended_register_valid rt req Hv). unfold try_catch.
    rewrite (extended_attempt_token_fails rt w req _ _ Ht).
    rewrite extended_on_error_run. reflexivity.
Qed.

Lemma token_failure_response_witness :
  let no_token :=
    Example.world (Example.reply 503 "Service Unavailable")
      Example.zoom_ok Example.list_ok Example.list_ok in
  let body := JObj [(js "message", JStr (js "Internal Server Error"));
                    (js "info", JUndefined);
                    (js "errorAt", JUndefined)] in
  responses_of (Base.register Example.runtime Example.valid_request) no_token
  = [(500, body)]
  /\ responses_of (Extended.register Example.runtime Example.valid_request) no_token
     = [(500, body)].
Proof.
  intros no_token body.
  destruct (token_failure_response
              Example.runtime no_token Example.valid_request
              {| status := 503; text := Example.jsq "Service Unavailable" |}
              (conj eq_refl eq_refl) eq_refl) as [Hbase Hext].
  split; [apply Hbase, valid_request_valid_base
         |apply Hext, valid_request_valid_extended].
Defined.

(** C3. An error response for a provider's failure should carry the failing
    stage in [errorAt] and the provider's message, or raw body, in [info].
    For a failed token request both variants answer with [errorAt] and
    [info] undefined, although the registrant and list stages fill them. *)
Theorem token_failure_has_no_provenance :
  let req := Example.valid_request in
  let no_token :=
    Example.world
      (Example.reply 401 "{'reason':'Invalid client_id or client_secret','error':'invalid_client'}")
      Example.zoom_ok Example.list_ok Example.list_ok in
  let no_registrant :=
    Example.world Example.token_ok
      (Example.reply 404 "{'code':'3001','message':'Webinar does not exist.'}")
      Example.list_ok Example.list_ok in
  let untagged := JObj [(js "message", JStr (js "Internal Server Error"));
                        (js "info", JUndefined);
                        (js "errorAt", JUndefined)] in
  let tagged := JObj [(js "message", JStr (js "Internal Server Error"));
                      (js "info", Example.str "Webinar does not exist.");
                      (js "errorAt", Example.str "zoom")] in
  responses_of (Base.register Example.runtime req) no_token = [(500, untagged)]
  /\ responses_of (Extended.register Example.runtime req) no_token = [(500, untagged)]
  /\ responses_of (Base.register Example.runtime req) no_registrant = [(500, tagged)]
  /\ responses_of (Extended.register Example.runtime req) no_registrant = [(500, tagged)].
Proof. cbv zeta. repeat split; vm_compute; reflexivity. Qed.

(** ** One response per invocation *)

(** C2. The base variant should commit exactly one response per invocation.
    For a POST request whose required fields are all present and whose
    e-mail is an object that cannot be converted to a string,
    [emailRegex.test] throws before the [try] block is entered: the handler
    sends no response and its promise rejects with the TypeError.  The
    extended variant, whose validation is inside a [try], answers the same
    request once. *)
Theorem base_variant_leaves_request_unanswered :
  let req := with_email Example.unconvertible Example.valid_request in
  is_POST req
  /\ Forall present (required_base req)
  /\ run (Base.register Example.runtime req) Example.all_ok
     = (fresh, Thrown conversion_error)
  /\ responses_of (Base.register Example.runtime req) Example.all_ok = []
  /\ exists body,
       responses_of (Extended.register Example.runtime req) Example.all_ok
       = [(500, body)].
Proof.
  cbv zeta. split; [reflexivity|]. split; [repeat constructor|].
  split; [vm_compute; reflexivity|]. split; [vm_compute; reflexivity|].
  eexists. vm_compute. reflexivity.
Qed.

(** When the list call fails after the 200, the [catch] block's own
    [res.status(500).send] is refused and the handler's promise rejects;
    nothing more reaches the caller. *)
Example base_list_failure_after_response :
  run (Base.register Example.runtime Example.valid_request)
      (Example.world Example.token_ok Example.zoom_ok
         (Example.reply 500 "Internal Server Error") Example.list_ok)
  = ({| trace := [EvFetch token_call;
                  EvFetch (Base.zoom_call Example.valid_request (Example.str "tok"));
                  EvSend 200 (success_body (Example.str "https://zoom.example/j/1"));
                  EvFetch (Base.mailchimp_call Example.valid_request)];
        headersSent := true |}, Thrown headers_sent_error).
Proof. vm_compute. reflexivity. Qed.

(** ** Region normalisation *)











(** ** The identifier *)

(** C10. Two requests that differ only in [identifier] (its value, or
    whether it is there) run alike against the same providers: same calls
    with the same payloads, same response, same completion.  Both
    variants. *)
Theorem identifier_never_influences (rt : Runtime) (w : World) (req : Request) (v : jsval) :
  run (Base.register rt (with_identifier v req)) w = run (Base.register rt req) w
  /\ run (Extended.register rt (with_identifier v req)) w
     = run (Extended.register rt req) w.
Proof. split; reflexivity. Qed.

(** * Further properties of the two files *)

(** ** Loading the configuration *)

Lemma split_without_separator (sep : N) (s : jsstring) :
  ~ In sep s -> Config.split sep s = [s].
Proof.
  induction s as [|c s IH]; cbn; [reflexivity|]. intros H.
  destruct (N.eqb c sep) eqn:E.
  - apply N.eqb_eq in E. exfalso. apply H. now left.
  - rewrite IH; [reflexivity|]. intros Hin. apply H. now right.
Qed.

Lemma split_at_first_separator (sep : N) (a s : jsstring) :
  ~ In sep a -> Config.split sep (a ++ sep :: s) = a :: Config.split sep s.
Proof.
  induction a as [|c a IH]; cbn; intros H.
  - now rewrite N.eqb_refl.
  - destruct (N.eqb c sep) eqn:E.
    + apply N.eqb_eq in E. exfalso. apply H. now left.
    + rewrite IH; [reflexivity|]. intros Hin. apply H. now right.
Qed.

Lemma split_nonempty (sep : N) (s : jsstring) : Config.split sep s <> [].
Proof.
  destruct s as [|c s]; cbn; [discriminate|].
  destruct (N.eqb c sep); [discriminate|].
  destruct (Config.split sep s); discriminate.
Qed.

(** X3. [getEnvVar] on the emulator returns [process.env[key]] whatever the
    path.  On the hosted runtime it ignores the key: for a path
    [section.name], with or without further components, it returns
    [functions.config()[section][name]], for a path without a dot it reads
    the property named "undefined", and it throws when the section does not
    exist. *)
Theorem getEnvVar_resolution (P : Config.Platform) (key : jsstring) :
  (Config.isLocal P = true ->
   forall path, Config.getEnvVar P key path = Returned (Config.process_env P key))
  /\
  (Config.isLocal P = false ->
   forall a b rest,
     ~ In 46%N a -> ~ In 46%N b -> rest = [] \/ (exists more, rest = 46%N :: more) ->
     Config.getEnvVar P key (a ++ 46%N :: b ++ rest)
     = match Config.functions_config P a with
       | Some section => Returned (section b)
       | None => Thrown type_error
       end)
  /\
  (Config.isLocal P = false ->
   forall a, ~ In 46%N a ->
     Config.getEnvVar P key a
     = match Config.functions_config P a with
       | Some section => Returned (section (js "undefined"))
       | None => Thrown type_error
       end).
Proof.
  unfold Config.getEnvVar. split; [|split]; intros ->.
  - reflexivity.
  - intros a b rest Ha Hb Hrest.
    rewrite (split_at_first_separator 46 a (b ++ rest) Ha).
    destruct Hrest as [->|[more ->]].
    + rewrite app_nil_r, (split_without_separator 46 b Hb). reflexivity.
    + rewrite (split_at_first_separator 46 b more Hb). reflexivity.
  - intros a Ha. rewrite (split_without_separator 46 a Ha). reflexivity.
Qed.

Lemma getEnvVar_resolution_witness :
  Config.getEnvVar (Config.emulator (fun k => JStr k)) (js "ZOOM_CLIENT_ID") (js "zoom.client_id")
  = Returned (JStr (js "ZOOM_CLIENT_ID"))
  /\ Config.getEnvVar (Config.hosted ["zoom"]) (js "ZOOM_CLIENT_ID") (js "zoom.client_id.x")
     = Returned (JStr (js "zoom/client_id"))
  /\ Config.getEnvVar (Config.hosted ["zoom"]) (js "MAILCHIMP_API_KEY") (js "mailchimp.api_key")
     = Thrown type_error
  /\ Config.getEnvVar (Config.hosted ["zoom"]) (js "ZOOM_CLIENT_ID") (js "zoom")
     = Returned (JStr (js "zoom/undefined")).
Proof.
  split; [|split; [|split]].
  - apply (proj1 (getEnvVar_resolution (Config.emulator (fun k => JStr k))
                    (js "ZOOM_CLIENT_ID")) eq_refl).
  - apply (proj1 (proj2 (getEnvVar_resolution (Config.hosted ["zoom"])
                           (js "ZOOM_CLIENT_ID"))) eq_refl
             (js "zoom") (js "client_id") (js ".x")).
    + vm_compute. intuition discriminate.
    + vm_compute. intuition discriminate.
    + right. now exists (js "x").
  - apply (proj1 (proj2 (getEnvVar_resolution (Config.hosted ["zoom"])
                           (js "MAILCHIMP_API_KEY"))) eq_refl
             (js "mailchimp") (js "api_key") []).
    + vm_compute. intuition discriminate.
    + vm_compute. intuition discriminate.
    + now left.
  - apply (proj2 (proj2 (getEnvVar_resolution (Config.hosted ["zoom"])
                           (js "ZOOM_CLIENT_ID"))) eq_refl (js "zoom")).
    vm_compute. intuition discriminate.
Defined.

Lemma getEnvVar_hosted (P : Config.Platform) (key a rest : jsstring) :
  Config.isLocal P = false -> ~ In 46%N a ->
  Config.getEnvVar P key (a ++ 46%N :: rest)
  = match Config.functions_config P a with
    | Some section => Returned (section (Config.key_at (Config.split 46 rest) 0))
    | None => Thrown type_error
    end.
Proof.
  unfold Config.getEnvVar. intros -> Ha.
  now rewrite (split_at_first_separator 46 a rest Ha).
Qed.

Lemma load_local (P : Config.Platform) (declarations : list (string * string)) :
  Config.isLocal P = true ->
  Config.load P declarations
  = Returned (map (fun d => (fst d, Config.process_env P (js (fst d)))) declarations).
Proof.
  intros HL. induction declarations as [|[name path] rest IH]; [reflexivity|].
  cbn [Config.load]. unfold Config.getEnvVar at 1. rewrite HL, IH. reflexivity.
Qed.

Ltac no_dot := vm_compute; intuition discriminate.

(** X4. On the emulator the constants of either file always load, each
    with the value of the environment variable of its name.  On the hosted
    runtime they load exactly when the configuration has the sections
    [zoom], [mailchimp] and [hubspot]; without any one of them, the unused
    [hubspot] included, loading the module throws. *)
Theorem module_load (P : Config.Platform) :
  (Config.isLocal P = true ->
   forall declarations,
     Config.load P declarations
     = Returned (map (fun d => (fst d, Config.process_env P (js (fst d)))) declarations))
  /\
  (Config.isLocal P = false ->
   ((exists constants, Config.load P Config.base_declarations = Returned constants)
    <-> configured P "zoom" /\ configured P "mailchimp" /\ configured P "hubspot")
   /\
   ((exists constants, Config.load P Config.extended_declarations = Returned constants)
    <-> configured P "zoom" /\ configured P "mailchimp" /\ configured P "hubspot")).
Proof.
  split; [intros HL declarations; now apply load_local|].
  intros HL.
  assert (Hz : forall key name,
             Config.getEnvVar P key (js "zoom" ++ 46%N :: name)
             = match Config.functions_config P (js "zoom") with
               | Some section => Returned (section (Config.key_at (Config.split 46 name) 0))
               | None => Thrown type_error
               end).
  { intros. apply getEnvVar_hosted; [assumption|no_dot]. }
  assert (Hm : forall key name,
             Config.getEnvVar P key (js "mailchimp" ++ 46%N :: name)
             = match Config.functions_config P (js "mailchimp") with
               | Some section => Returned (section (Config.key_at (Config.split 46 name) 0))
               | None => Thrown type_error
               end).
  { intros. apply getEnvVar_hosted; [assumption|no_dot]. }
  assert (Hh : forall key name,
             Config.getEnvVar P key (js "hubspot" ++ 46%N :: name)
             = match Config.functions_config P (js "hubspot") with
               | Some section => Returned (section (Config.key_at (Config.split 46 name) 0))
               | None => Thrown type_error
               end).
  { intros. apply getEnvVar_hosted; [assumption|no_dot]. }
  unfold configured, Config.base_declarations, Config.extended_declarations.
  cbn [Config.load].
  change (js "zoom.account_id") with (js "zoom" ++ 46%N :: js "account_id").
  change (js "zoom.client_id") with (js "zoom" ++ 46%N :: js "client_id").
  change (js "zoom.client_secret") with (js "zoom" ++ 46%N :: js "client_secret").
  change (js "mailchimp.api_key") with (js "mailchimp" ++ 46%N :: js "api_key").
  change (js "mailchimp.server_prefix") with (js "mailchimp" ++ 46%N :: js "server_prefix").
  change (js "mailchimp.list_id") with (js "mailchimp" ++ 46%N :: js "list_id").
  change (js "mailchimp.list_id_2") with (js "mailchimp" ++ 46%N :: js "list_id_2").
  change (js "hubspot.api_token") with (js "hubspot" ++ 46%N :: js "api_token").
  rewrite !Hz, !Hm, !Hh.
  destruct (Config.functions_config P (js "zoom")) as [zoom|];
  destruct (Config.functions_config P (js "mailchimp")) as [mailchimp|];
  destruct (Config.functions_config P (js "hubspot")) as [hubspot|];
  (split; (split;
   [ intros [constants H]; try discriminate H; repeat split; discriminate
   | intros (Hzoom & Hmail & Hhub); try solve [eexists; reflexivity];
     try (now contradiction Hzoom); try (now contradiction Hmail);
     try (now contradiction Hhub) ])).
Qed.

Lemma module_load_witness :
  (exists constants,
     Config.load (Config.hosted ["zoom"; "mailchimp"; "hubspot"]) Config.base_declarations
     = Returned constants)
  /\ ~ (exists constants,
          Config.load (Config.hosted ["zoom"; "mailchimp"]) Config.extended_declarations
          = Returned constants)
  /\ Config.load (Config.emulator (fun k => JStr k)) Config.base_declarations
     = Returned (map (fun d => (fst d, JStr (js (fst d)))) Config.base_declarations).
Proof.
  split; [|split].
  - apply (proj2 (proj1 (proj2 (module_load (Config.hosted ["zoom"; "mailchimp"; "hubspot"]))
                           eq_refl))).
    repeat split; discriminate.
  - intros H.
    apply (proj1 (proj2 (proj2 (module_load (Config.hosted ["zoom"; "mailchimp"]))
                           eq_refl))) in H.
    destruct H as (_ & _ & Hh). now apply Hh.
  - apply (proj1 (module_load (Config.emulator (fun k => JStr k))) eq_refl
             Config.base_declarations).
Defined.

Lemma jsstring_eqb_neq (a b : jsstring) : jsstring_eqb a b = false <-> a <> b.
Proof.
  rewrite <- jsstring_eqb_eq. destruct (jsstring_eqb a b); split; congruence.
Qed.

Lemma base_check_false (req : Request) :
  negb (truthy (firstName req)) || negb (truthy (lastName req))
  || negb (truthy (email req)) || negb (truthy (eventId req))
  || negb (truthy (company req)) = false ->
  Forall present (required_base req).
Proof.
  intros H. repeat (apply orb_false_iff in H; destruct H as [H ?]).
  unfold required_base, present.
  repeat constructor; now apply negb_false_iff.
Qed.

Lemma base_check_true (req : Request) :
  negb (truthy (firstName req)) || negb (truthy (lastName req))
  || negb (truthy (email req)) || negb (truthy (eventId req))
  || negb (truthy (company req)) = true ->
  Exists missing (required_base req).
Proof.
  intros H. unfold required_base, missing.
  repeat (apply orb_true_iff in H; destruct H as [H|H]);
    apply negb_true_iff in H; rewrite Exists_exists; eexists; (split; [|exact H]);
    cbn; auto 10.
Qed.

Lemma extended_check_false (req : Request) :
  negb (truthy (firstName req)) || negb (truthy (lastName req))
  || negb (truthy (email req)) || negb (truthy (eventId req))
  || negb (truthy (company req)) || negb (truthy (city req))
  || negb (truthy (region req)) || negb (truthy (zipCode req))
  || negb (truthy (state req)) || negb (truthy (phone req))
  || negb (truthy (jobTitle req)) = false ->
  Forall present (required_extended req).
Proof.
  intros H. repeat (apply orb_false_iff in H; destruct H as [H ?]).
  unfold required_extended, required_base, present. cbn [app].
  repeat constructor; now apply negb_false_iff.
Qed.

Lemma extended_check_true (req : Request) :
  negb (truthy (firstName req)) || negb (truthy (lastName req))
  || negb (truthy (email req)) || negb (truthy (eventId req))
  || negb (truthy (company req)) || negb (truthy (city req))
  || negb (truthy (region req)) || negb (truthy (zipCode req))
  || negb (truthy (state req)) || negb (truthy (phone req))
  || negb (truthy (jobTitle req)) = true ->
  Exists missing (required_extended req).
Proof.
  intros H. unfold required_extended, required_base, missing. cbn [app].
  repeat (apply orb_true_iff in H; destruct H as [H|H]);
    apply negb_true_iff in H; rewrite Exists_exists; eexists; (split; [|exact H]);
    cbn; auto 20.
Qed.

Lemma missing_not_all_present (l : list jsval) :
  Exists missing l -> ~ Forall present l.
Proof.
  unfold missing, present. intros Hex Hall.
  apply Exists_exists in Hex as (v & Hin & Hv).
  rewrite Forall_forall in Hall. specialize (Hall v Hin). congruence.
Qed.

Lemma required_base_extended (req : Request) :
  Exists missing (required_base req) -> Exists missing (required_extended req).
Proof. unfold required_extended. intros H. apply Exists_app. now left. Qed.

Lemma base_zoom_call_sendable (rt : Runtime) (req : Request) (tok : jsval)
    (a b : jsstring) :
  ToString rt (eventId req) = Some a -> ToString rt tok = Some b ->
  sendable (Base.zoom_call req tok) = true.
Proof.
  intros Ha Hb. apply (sendable_base_zoom_call rt). unfold converts.
  split; congruence.
Qed.

Lemma base_zoom_call_not_sendable (rt : Runtime) (req : Request) (tok : jsval) :
  ToString rt (eventId req) = None \/ ToString rt tok = None ->
  sendable (Base.zoom_call req tok) = false.
Proof.
  intros H. destruct (sendable (Base.zoom_call req tok)) eqn:Es; [|reflexivity].
  apply (sendable_base_zoom_call rt) in Es as [Hid Htok]. unfold converts in *.
  destruct H; contradiction.
Qed.

Lemma extended_zoom_call_sendable (rt : Runtime) (req : Request) (region tok : jsval)
    (a b : jsstring) :
  ToString rt (eventId req) = Some a -> ToString rt tok = Some b ->
  sendable (Extended.zoom_call req region tok) = true.
Proof.
  intros Ha Hb. apply (sendable_extended_zoom_call rt). unfold converts.
  split; congruence.
Qed.

(** Every run of the base handler, by the stage at which it ends. *)
Lemma base_run_cases (rt : Runtime) (w : World) (req : Request) :
  (~ valid_base rt req
   /\ exists code body,
        code <> 200
        /\ run (Base.register rt req) w
           = ({| trace := [EvSend code body]; headersSent := true |}, Returned tt))
  \/
  (is_POST req /\ Forall present (required_base req) /\ email_test rt req = None
   /\ run (Base.register rt req) w = (fresh, Thrown conversion_error))
  \/
  (valid_base rt req
   /\ exists e,
        (token_outcome rt w = Thrown e
         \/ exists tok,
              token_outcome rt w = Returned tok
              /\ sendable (Base.zoom_call req tok) = false
              /\ e = conversion_error)
        /\ run (Base.register rt req) w
           = ({| trace := [EvFetch token_call; EvSend 500 (error_body rt e)];
                 headersSent := true |}, Returned tt))
  \/
  (valid_base rt req
   /\ exists tok e,
        token_outcome rt w = Returned tok
        /\ run (Base.register rt req) w
           = ({| trace := [EvFetch token_call; EvFetch (Base.zoom_call req tok);
                           EvSend 500 (error_body rt e)];
                 headersSent := true |}, Returned tt))
  \/
  (valid_base rt req
   /\ exists tok r zoomData join_url,
        token_outcome rt w = Returned tok
        /\ answers w (Base.zoom_call req tok) r /\ ok r = true
        /\ JSON_parse rt (text r) = Some zoomData
        /\ get_prop zoomData (js "join_url") = Some join_url
        /\ run (Base.register rt req) w
           = ({| trace := [EvFetch token_call; EvFetch (Base.zoom_call req tok);
                           EvSend 200 (success_body join_url);
                           EvFetch (Base.mailchimp_call req)];
                 headersSent := true |},
              if list_sync_failed w req then Thrown headers_sent_error
              else Returned tt)).
Proof.
  remember (run (Base.register rt req) w) as res eqn:E.
  unfold run, Base.register in E.
  destruct (jsstring_eqb (method req) (js "POST")) eqn:Em; cbn [negb] in E.
  2:{ left. split.
      - intros (Hm & _). unfold is_POST in Hm. apply jsstring_eqb_neq in Em. contradiction.
      - exists 405, (JStr (js "Method Not Allowed")). subst res.
        split; [discriminate|reflexivity]. }
  apply jsstring_eqb_eq in Em.
  match type of E with context [if ?c then res_send 500 _ else _] => destruct c eqn:Ec end.
  { left. split.
    - intros (_ & Hp & _). revert Hp. apply missing_not_all_present, base_check_true, Ec.
    - exists 500, missing_fields_body. subst res. split; [discriminate|reflexivity]. }
  apply base_check_false in Ec. unfold bind at 1 in E.
  destruct (email_test rt req) as [[|]|] eqn:Ee.
  2:{ rewrite (test_email_returns rt req false w fresh Ee) in E. left. split.
      - intros (_ & _ & He). unfold email_well_formed in He. congruence.
      - exists 400, invalid_email_body. subst res. split; [discriminate|reflexivity]. }
  2:{ rewrite (test_email_throws rt req w fresh Ee) in E. right. left.
      subst res. repeat split; assumption. }
  rewrite (test_email_returns rt req true w fresh Ee) in E. cbn [negb] in E.
  assert (Hv : valid_base rt req) by (repeat split; assumption).
  right. right.
  unfold try_catch, Base.attempt, bind in E. rewrite getZoomAccessToken_run in E.
  destruct (token_outcome rt w) as [tok|e] eqn:Et.
  2:{ left. split; [assumption|]. exists e. subst res.
      split; [left|]; reflexivity. }
  unfold to_string in E.
  destruct (ToString rt (eventId req)) as [id|] eqn:Eid.
  2:{ left. split; [assumption|]. exists conversion_error. subst res.
      split; [right; exists tok|reflexivity].
      repeat split. apply (base_zoom_call_not_sendable rt). now left. }
  destruct (ToString rt tok) as [bearer|] eqn:Etok.
  2:{ left. split; [assumption|]. exists conversion_error. subst res.
      split; [right; exists tok|reflexivity].
      repeat split. apply (base_zoom_call_not_sendable rt). now right. }
  pose proof (base_zoom_call_sendable rt req tok id bearer Eid Etok) as Hs.
  right. cbn [ret] in E. unfold fetch at 1 in E.
  destruct (w (Base.zoom_call req tok)) as [e|r] eqn:Ez.
  { left. split; [assumption|]. exists tok, e. subst res. split; reflexivity. }
  destruct (ok r) eqn:Eok; cbn [negb] in E.
  2:{ left. split; [assumption|]. subst res. eexists tok, _. split; reflexivity. }
  unfold json in E. destruct (JSON_parse rt (text r)) as [zoomData|] eqn:Ep.
  2:{ left. split; [assumption|]. subst res. eexists tok, _. split; reflexivity. }
  unfold prop in E. cbn in E.
  destruct (get_prop zoomData (js "join_url")) as [join_url|] eqn:Eg.
  2:{ left. split; [assumption|]. subst res. eexists tok, _. split; reflexivity. }
  right. split; [assumption|]. exists tok, r, zoomData, join_url. cbn in E.
  unfold list_sync_failed, answers.
  destruct (w (Base.mailchimp_call req)) as [e|m].
  { subst res. repeat split; assumption. }
  destruct (negb (ok m) && negb (status m =? 400)); subst res;
    repeat split; assumption.
Qed.

(** Every run of the extended handler, by the stage at which it ends. *)
Lemma extended_run_cases (rt : Runtime) (w : World) (req : Request) :
  (~ valid_extended rt req
   /\ exists pre code body,
        code <> 200
        /\ run (Extended.register rt req) w
           = ({| trace := pre ++ [EvSend code body]; headersSent := true |}, Returned tt)
        /\ calls pre = [] /\ responses pre = []
        /\ (pre = [] \/ pre = [allow_origin_event]))
  \/
  (valid_extended rt req
   /\ exists tok n e,
        (1 <= n <= 4)%nat
        /\ run (Extended.register rt req) w
           = ({| trace := map EvFetch (firstn n (extended_call_sequence req tok))
                          ++ [allow_origin_event; EvSend 500 (error_body rt e)];
                 headersSent := true |}, Returned tt))
  \/
  (valid_extended rt req
   /\ exists tok,
        run (Extended.register rt req) w
        = ({| trace := map EvFetch (extended_call_sequence req tok)
                       ++ [allow_origin_event; allow_origin_event;
                           EvSend 500 (error_body rt type_error)];
              headersSent := true |}, Returned tt))
  \/
  (valid_extended rt req
   /\ exists tok r zoomData join_url m1 m2,
        token_outcome rt w = Returned tok
        /\ answers w (Extended.zoom_call req (Extended.normalized_region req) tok) r
        /\ ok r = true
        /\ JSON_parse rt (text r) = Some zoomData
        /\ get_prop zoomData (js "join_url") = Some join_url
        /\ answers w (Extended.mailchimp_call MAILCHIMP_LIST_ID req
                        (Extended.normalized_region req)) m1
        /\ ok m1 = true
        /\ answers w (Extended.mailchimp_call MAILCHIMP_LIST_ID_2 req
                        (Extended.normalized_region req)) m2
        /\ ok m2 = true
        /\ run (Extended.register rt req) w
           = ({| trace := map EvFetch (extended_call_sequence req tok)
                          ++ [allow_origin_event; EvSend 200 (success_body join_url)];
                 headersSent := true |}, Returned tt)).
Proof.
  remember (run (Extended.register rt req) w) as res eqn:E.
  unfold run, Extended.register, Extended.cors in E.
  destruct (jsstring_eqb (method req) (js "OPTIONS")) eqn:Eo.
  { apply jsstring_eqb_eq in Eo. left. split.
    - intros (Hm & _). unfold is_POST in Hm. rewrite Hm in Eo. discriminate Eo.
    - exists [], 204, (JStr []). subst res.
      repeat split; try reflexivity; try discriminate. now left. }
  unfold Extended.callback in E. rewrite Eo in E.
  destruct (jsstring_eqb (method req) (js "POST")) eqn:Em; cbn [negb] in E.
  2:{ left. split.
      - intros (Hm & _). unfold is_POST in Hm. apply jsstring_eqb_neq in Em. contradiction.
      - exists [], 405, (JStr (js "Method Not Allowed")). subst res.
        repeat split; try reflexivity; try discriminate. now left. }
  apply jsstring_eqb_eq in Em. unfold try_catch at 1 in E.
  match type of E with context [if ?c then res_send 500 _ else _] => destruct c eqn:Ec end.
  { left. split.
    - intros (_ & Hp & _). revert Hp.
      apply missing_not_all_present, extended_check_true, Ec.
    - exists [], 500, missing_fields_body. subst res.
      repeat split; try reflexivity; try discriminate. now left. }
  apply extended_check_false in Ec. cbv zeta in E. unfold bind at 1 in E.
  destruct (email_test rt req) as [[|]|] eqn:Ee.
  2:{ rewrite (test_email_returns rt req false w fresh Ee) in E. left. split.
      - intros (_ & _ & He). unfold email_well_formed in He. congruence.
      - exists [], 400, invalid_email_body. subst res.
        repeat split; try reflexivity; try discriminate. now left. }
  2:{ rewrite (test_email_throws rt req w fresh Ee) in E. left. split.
      - intros (_ & _ & He). unfold email_well_formed in He. congruence.
      - exists [allow_origin_event], 500,
          (JObj [(js "message", JStr (js "Internal Server Error"));
                 (js "error", JStr (Error_toString conversion_error))]).
        subst res. repeat split; try reflexivity; try discriminate. now right. }
  rewrite (test_email_returns rt req true w fresh Ee) in E. cbn [negb] in E.
  assert (Hv : valid_extended rt req) by (repeat split; assumption).
  right. unfold try_catch, Extended.attempt, bind in E.
  rewrite getZoomAccessToken_run in E.
  destruct (token_outcome rt w) as [tok|e] eqn:Et.
  2:{ left. split; [assumption|]. exists JUndefined, 1%nat, e. subst res.
      split; [lia|reflexivity]. }
  unfold to_string in E.
  destruct (ToString rt (eventId req)) as [id|] eqn:Eid.
  2:{ left. split; [assumption|]. exists tok, 1%nat, conversion_error. subst res.
      split; [lia|reflexivity]. }
  destruct (ToString rt tok) as [bearer|] eqn:Etok.
  2:{ left. split; [assumption|]. exists tok, 1%nat, conversion_error. subst res.
      split; [lia|reflexivity]. }
  pose proof (extended_zoom_call_sendable rt req (Extended.normalized_region req)
                tok id bearer Eid Etok) as Hs.
  cbn [ret] in E. unfold fetch at 1 in E.
  destruct (w (Extended.zoom_call req (Extended.normalized_region req) tok))
    as [e|r] eqn:Ez.
  { left. split; [assumption|]. exists tok, 2%nat, e. subst res.
    split; [lia|reflexivity]. }
  destruct (ok r) eqn:Eok; cbn [negb] in E.
  2:{ left. split; [assumption|]. subst res. eexists tok, 2%nat, _.
      split; [lia|reflexivity]. }
  unfold json in E. destruct (JSON_parse rt (text r)) as [zoomData|] eqn:Ep.
  2:{ left. split; [assumption|]. subst res. eexists tok, 2%nat, _.
      split; [lia|reflexivity]. }
  cbn [ret] in E. unfold fetch at 1 in E.
  destruct (w (Extended.mailchimp_call MAILCHIMP_LIST_ID req
                 (Extended.normalized_region req))) as [e|m1] eqn:E1.
  { left. split; [assumption|]. exists tok, 3%nat, e. subst res.
    split; [lia|reflexivity]. }
  unfold fetch at 1 in E.
  destruct (w (Extended.mailchimp_call MAILCHIMP_LIST_ID_2 req
                 (Extended.normalized_region req))) as [e|m2] eqn:E2.
  { left. split; [assumption|]. exists tok, 4%nat, e. subst res.
    split; [lia|reflexivity]. }
  rewrite !extended_guard_is_not_ok in E.
  destruct (ok m2) eqn:Eok2; cbn [negb] in E.
  2:{ left. split; [assumption|]. subst res. eexists tok, 4%nat, _.
      split; [lia|reflexivity]. }
  destruct (ok m1) eqn:Eok1; cbn [negb] in E.
  2:{ left. split; [assumption|]. subst res. eexists tok, 4%nat, _.
      split; [lia|reflexivity]. }
  right. unfold prop in E. cbn in E.
  destruct (get_prop zoomData (js "join_url")) as [join_url|] eqn:Eg.
  - right. split; [assumption|]. exists tok, r, zoomData, join_url, m1, m2.
    subst res. unfold answers. repeat split; assumption.
  - left. split; [assumption|]. exists tok. subst res. reflexivity.
Qed.

Lemma calls_app (a b : list Event) : calls (a ++ b) = calls a ++ calls b.
Proof.
  induction a as [|[c|n v|code body] a IH]; cbn; [reflexivity|..]; now rewrite IH.
Qed.

Lemma responses_app (a b : list Event) : responses (a ++ b) = responses a ++ responses b.
Proof.
  induction a as [|[c|n v|code body] a IH]; cbn; [reflexivity|..]; now rewrite IH.
Qed.


Lemma responses_map_EvFetch (l : list Call) : responses (map EvFetch l) = [].
Proof. induction l as [|c l IH]; cbn; [reflexivity|exact IH]. Qed.

(** ** The base variant, run by run *)

(** X8. The promise of the base handler rejects in exactly two situations.
    Either the request is a POST with all required fields whose e-mail
    cannot be converted to a string: [emailRegex.test] throws its TypeError
    outside the [try] block and no response is sent.  Or the list call fails
    (is rejected, or answers outside 200..299 with a status other than 400)
    after the 200 was sent: the error is then ERR_HTTP_HEADERS_SENT, raised
    by the [catch] block's own response. *)
Theorem base_promise_rejects_iff
    (rt : Runtime) (w : World) (req : Request) (e : exn) :
  snd (run (Base.register rt req) w) = Thrown e
  <-> (e = conversion_error
       /\ is_POST req /\ Forall present (required_base req)
       /\ email_test rt req = None
       /\ responses_of (Base.register rt req) w = [])
      \/
      (e = headers_sent_error
       /\ list_sync_failed w req = true
       /\ exists join_url,
            responses_of (Base.register rt req) w
            = [(200, JObj [(js "message", JStr (js "Registration successful"));
                           (js "join_url", join_url)])]).
Proof.
  split.
  - unfold responses_of.
    destruct (base_run_cases rt w req)
      as [(_ & code & body & Hc & ->)
         |[(Hm & Hp & He & ->)
          |[(_ & e' & _ & ->)
           |[(_ & tok & e' & _ & ->)
            |(_ & tok & r & d & j & _ & _ & _ & _ & _ & ->)]]]];
      cbn [fst snd trace responses]; try discriminate.
    + intros H. injection H as <-. left. repeat split; assumption.
    + destruct (list_sync_failed w req); [|discriminate].
      intros H. injection H as <-. right. repeat split. now exists j.
  - intros [(-> & Hm & Hp & He & _)|(-> & Hl & j' & Hr)].
    + now rewrite (base_register_unconvertible rt w req Hm Hp He).
    + revert Hr. unfold responses_of.
      destruct (base_run_cases rt w req)
        as [(_ & code & body & Hc & ->)
           |[(_ & _ & _ & ->)
            |[(_ & e' & _ & ->)
             |[(_ & tok & e' & _ & ->)
              |(_ & tok & r & d & j & _ & _ & _ & _ & _ & ->)]]]];
        cbn [fst snd trace responses]; try discriminate.
      * intros H. injection H as H _. contradiction.
      * intros _. now rewrite Hl.
Qed.

(** X9. The base variant answers 200 exactly when the request passes
    validation, a token is acquired and the registrant endpoint answers in
    200..299 with a JSON body that is not [null]; the body of the 200 is
    then the object with the two members [message], the string
    ["Registration successful"], and [join_url], that JSON's [join_url].
    The list call has no part in it. *)
Theorem base_success_iff_registrant_created
    (rt : Runtime) (w : World) (req : Request) (body : jsval) :
  responses_of (Base.register rt req) w = [(200, body)]
  <-> valid_base rt req
      /\ exists tok r zoomData join_url,
           token_outcome rt w = Returned tok
           /\ answers w (Base.zoom_call req tok) r /\ ok r = true
           /\ JSON_parse rt (text r) = Some zoomData
           /\ get_prop zoomData (js "join_url") = Some join_url
           /\ body = JObj [(js "message", JStr (js "Registration successful"));
                           (js "join_url", join_url)].
Proof.
  split.
  - unfold responses_of.
    destruct (base_run_cases rt w req)
      as [(_ & code & body' & Hc & ->)
         |[(_ & _ & _ & ->)
          |[(_ & e' & _ & ->)
           |[(_ & tok & e' & _ & ->)
            |(Hv & tok & r & d & j & Ht & Hz & Hok & Hp & Hg & ->)]]]];
      cbn [fst snd trace responses]; intros H; try discriminate H.
    + injection H as H _. contradiction.
    + injection H as <-. split; [assumption|]. now exists tok, r, d, j.
  - intros (Hv & tok & r & d & j & Ht & Hz & Hok & Hp & Hg & ->).
    unfold responses_of, run. rewrite (base_register_valid rt req Hv). unfold try_catch.
    rewrite (base_attempt_zoom_ok rt w req tok r d j Ht Hz Hok Hp Hg).
    destruct (w (Base.mailchimp_call req)) as [e|m]; [reflexivity|].
    destruct (negb (ok m) && negb (status m =? 400)); reflexivity.
Qed.

(** X10. In the base variant a call to a list endpoint is the call to the one
    configured list, it is issued only after the 200 was sent, and it is the
    last event of the run. *)
Theorem base_list_call_follows_response
    (rt : Runtime) (w : World) (req : Request) (c : Call) (l : ListId) :
  In (EvFetch c) (trace (fst (run (Base.register rt req) w))) ->
  endpoint c = MailchimpMembers l ->
  c = Base.mailchimp_call req
  /\ exists tok join_url,
       trace (fst (run (Base.register rt req) w))
       = [EvFetch token_call; EvFetch (Base.zoom_call req tok);
          EvSend 200 (success_body join_url); EvFetch c].
Proof.
  destruct (base_run_cases rt w req)
    as [(_ & code & body' & Hc & ->)
       |[(_ & _ & _ & ->)
        |[(_ & e' & _ & ->)
         |[(_ & tok & e' & _ & ->)
          |(Hv & tok & r & d & j & Ht & Hz & Hok & Hp & Hg & ->)]]]];
    cbn [fst snd trace In]; intros Hin He.
  - destruct Hin as [H|[]]; discriminate H.
  - contradiction Hin.
  - destruct Hin as [H|[H|[]]]; try discriminate H.
    injection H as <-. discriminate He.
  - destruct Hin as [H|[H|[H|[]]]]; try discriminate H;
      injection H as <-; discriminate He.
  - destruct Hin as [H|[H|[H|[H|[]]]]]; try discriminate H;
      injection H as <-; try discriminate He.
    split; [reflexivity|]. now exists tok, j.
Qed.

Lemma forwards_base_zoom_call (req : Request) (tok : jsval) :
  forwards_base req (Base.zoom_call req tok).
Proof.
  unfold forwards_base. cbn [endpoint Base.zoom_call].
  repeat split; repeat constructor.
Qed.

Lemma forwards_base_mailchimp_call (req : Request) :
  forwards_base req (Base.mailchimp_call req).
Proof.
  unfold forwards_base. cbn [endpoint Base.mailchimp_call].
  repeat split; repeat constructor.
Qed.

(** X11. Every outbound call of the base variant carries the request's
    properties as they came: e-mail, names and company to the registrant
    endpoint, the same and the job title to the list, with
    [status_if_new] "subscribed".  It never sends city, state, region, zip
    code or phone, and never calls the second list. *)
Theorem base_calls_forward (rt : Runtime) (w : World) (req : Request) :
  Forall (forwards_base req) (calls_of (Base.register rt req) w).
Proof.
  unfold calls_of.
  destruct (base_run_cases rt w req)
    as [(_ & code & body' & Hc & ->)
       |[(_ & _ & _ & ->)
        |[(_ & e' & _ & ->)
         |[(_ & tok & e' & _ & ->)
          |(Hv & tok & r & d & j & Ht & Hz & Hok & Hp & Hg & ->)]]]];
    cbn [fst snd trace calls];
    repeat constructor;
    auto using forwards_base_zoom_call, forwards_base_mailchimp_call.
Qed.

(** The base variant does not read [city], [state], [region],
    [zipCode] or [phone]: changing them changes nothing of the run. *)
Theorem base_ignores_address (rt : Runtime) (w : World) (req : Request)
    (c s r z p : jsval) :
  run (Base.register rt (with_address c s r z p req)) w = run (Base.register rt req) w.
Proof. reflexivity. Qed.

Lemma valid_extended_valid_base (rt : Runtime) (req : Request) :
  valid_extended rt req -> valid_base rt req.
Proof.
  intros (Hm & Hp & He). repeat split; try assumption.
  unfold required_extended in Hp. now apply Forall_app in Hp as [Hp _].
Qed.

(** X12. A request that the base variant answers without any outbound call
    is answered without any outbound call by the extended variant too. *)
Theorem extended_validation_is_stricter (rt : Runtime) (w : World) (req : Request) :
  calls_of (Base.register rt req) w = [] ->
  calls_of (Extended.register rt req) w = [].
Proof.
  unfold calls_of. intros Hc.
  assert (Hnv : ~ valid_base rt req).
  { revert Hc.
    destruct (base_run_cases rt w req)
      as [(Hnv & _)
         |[(_ & _ & He & _)
          |[(_ & e' & _ & ->)
           |[(_ & tok & e' & _ & ->)
            |(_ & tok & r & d & j & _ & _ & _ & _ & _ & ->)]]]];
      cbn [fst snd trace calls]; try discriminate; intros _.
    - exact Hnv.
    - intros (_ & _ & H). unfold email_well_formed in H. congruence. }
  destruct (extended_run_cases rt w req)
    as [(_ & pre & code & body & _ & -> & Hcalls & _)
       |[(Hv & _)|[(Hv & _)|(Hv & _)]]];
    try (contradiction Hnv; now apply valid_extended_valid_base).
  cbn [fst trace]. rewrite calls_app, Hcalls. reflexivity.
Qed.

(** ** The extended variant, run by run *)

(** X13. Every run of the extended handler returns normally, commits
    exactly one response, and that response is its last event: no call and
    no header write follows it. *)
Theorem extended_responds_once_at_the_end (rt : Runtime) (w : World) (req : Request) :
  exists pre code body,
    run (Extended.register rt req) w
    = ({| trace := pre ++ [EvSend code body]; headersSent := true |}, Returned tt)
    /\ responses pre = [].
Proof.
  destruct (extended_run_cases rt w req)
    as [(_ & pre & code & body & _ & -> & _ & Hresp & _)
       |[(_ & tok & n & e & _ & ->)
        |[(_ & tok & ->)
         |(_ & tok & r & d & j & m1 & m2 & _ & _ & _ & _ & _ & _ & _ & _ & _ & ->)]]].
  - now exists pre, code, body.
  - exists (map EvFetch (firstn n (extended_call_sequence req tok)) ++ [allow_origin_event]).
    eexists _, _. rewrite <- app_assoc. split; [reflexivity|].
    now rewrite responses_app, responses_map_EvFetch.
  - exists (map EvFetch (extended_call_sequence req tok)
            ++ [allow_origin_event; allow_origin_event]).
    eexists _, _. rewrite <- app_assoc. split; [reflexivity|].
    now rewrite responses_app, responses_map_EvFetch.
  - exists (map EvFetch (extended_call_sequence req tok) ++ [allow_origin_event]).
    eexists _, _. rewrite <- app_assoc. split; [reflexivity|].
    now rewrite responses_app, responses_map_EvFetch.
Qed.

(** X15. The extended variant answers 200 exactly when the request passes
    validation, a token is acquired, the registrant endpoint answers in
    200..299 with a JSON body that is not [null], and both list endpoints
    answer in 200..299; the body of the 200 is then the object with the
    two members [message], the string ["Registration successful"], and
    [join_url], the registrant JSON's [join_url]. *)
Theorem extended_success_iff_all_stages_succeeded
    (rt : Runtime) (w : World) (req : Request) (body : jsval) :
  responses_of (Extended.register rt req) w = [(200, body)]
  <-> valid_extended rt req
      /\ exists tok r zoomData join_url m1 m2,
           token_outcome rt w = Returned tok
           /\ answers w (Extended.zoom_call req (Extended.normalized_region req) tok) r
           /\ ok r = true
           /\ JSON_parse rt (text r) = Some zoomData
           /\ get_prop zoomData (js "join_url") = Some join_url
           /\ answers w (Extended.mailchimp_call MAILCHIMP_LIST_ID req
                           (Extended.normalized_region req)) m1
           /\ ok m1 = true
           /\ answers w (Extended.mailchimp_call MAILCHIMP_LIST_ID_2 req
                           (Extended.normalized_region req)) m2
           /\ ok m2 = true
           /\ body = JObj [(js "message", JStr (js "Registration successful"));
                           (js "join_url", join_url)].
Proof.
  split.
  - unfold responses_of.
    destruct (extended_run_cases rt w req)
      as [(_ & pre & code & body' & Hc & -> & _ & Hresp & _)
         |[(_ & tok & n & e & _ & ->)
          |[(_ & tok & ->)
           |(Hv & tok & r & d & j & m1 & m2 & H)]]].
    + cbn [fst trace]. rewrite responses_app, Hresp. cbn. intros H.
      injection H as H _. contradiction.
    + cbn [fst trace]. rewrite responses_app, responses_map_EvFetch. cbn. discriminate.
    + cbn [fst trace]. rewrite responses_app, responses_map_EvFetch. cbn. discriminate.
    + destruct H as (Ht & Hz & Hok & Hp & Hg & H1 & Hok1 & H2 & Hok2 & ->).
      cbn [fst trace]. rewrite responses_app, responses_map_EvFetch. cbn.
      intros H. injection H as <-. split; [assumption|].
      now exists tok, r, d, j, m1, m2.
  - intros (Hv & tok & r & d & j & m1 & m2
            & Ht & Hz & Hok & Hp & Hg & H1 & Hok1 & H2 & Hok2 & ->).
    unfold responses_of, run.
    rewrite (extended_register_valid rt req Hv). unfold try_catch.
    rewrite (extended_attempt_lists rt w req _ tok r m1 m2 d Ht Hz Hok Hp H1 H2).
    rewrite Hok1, Hok2, Hg. reflexivity.
Qed.

(** X16. In the extended variant, once the registrant is created and the
    first list endpoint has answered, with any status, the second list is
    called as well: the statuses are examined only after both calls. *)
Theorem second_list_called_whatever_first_answers
    (rt : Runtime) (w : World) (req : Request)
    (tok : jsval) (r m1 : Response) (zoomData : jsval) :
  valid_extended rt req ->
  token_outcome rt w = Returned tok ->
  answers w (Extended.zoom_call req (Extended.normalized_region req) tok) r ->
  ok r = true ->
  JSON_parse rt (text r) = Some zoomData ->
  answers w (Extended.mailchimp_call MAILCHIMP_LIST_ID req
               (Extended.normalized_region req)) m1 ->
  calls_of (Extended.register rt req) w = extended_call_sequence req tok.
Proof.
  intros Hv Ht [Hs Hz] Hok Hp [_ H1]. unfold calls_of, run.
  apply (sendable_extended_zoom_call rt) in Hs as [Hid Htok].
  rewrite (extended_register_valid rt req Hv). unfold try_catch.
  rewrite (extended_attempt_converts rt w req _ tok Ht Hid Htok).
  unfold bind, fetch. rewrite Hz, Hok.
  unfold json. rewrite Hp. cbn. rewrite H1.
  destruct (w (Extended.mailchimp_call MAILCHIMP_LIST_ID_2 req
                 (Extended.normalized_region req))) as [e|m2]; [reflexivity|].
  destruct (negb (ok m2) && negb (status m2 =? 200)); [reflexivity|].
  destruct (negb (ok m1) && negb (status m1 =? 200)); [reflexivity|].
  unfold prop. cbn. destruct (get_prop zoomData (js "join_url")); reflexivity.
Qed.

(** ** Token acquisition and error texts *)

(** X6. [getZoomAccessToken] returns a value exactly when the token
    endpoint answers with a status in 200..299 and a JSON body that is not
    [null]; the value is the body's [access_token] member, [undefined] when
    it has none. *)
Theorem token_acquired_iff (rt : Runtime) (w : World) (tok : jsval) :
  token_outcome rt w = Returned tok
  <-> exists r data,
        answers w token_call r /\ ok r = true
        /\ JSON_parse rt (text r) = Some data
        /\ get_prop data (js "access_token") = Some tok.
Proof.
  split.
  - unfold token_outcome, run, getZoomAccessToken, bind, fetch, answers. cbn.
    destruct (w token_call) as [e|r]; [discriminate|].
    destruct (ok r) eqn:Eok; cbn; [|discriminate].
    unfold json. destruct (JSON_parse rt (text r)) as [data|] eqn:Ep; cbn; [|discriminate].
    unfold prop. destruct (get_prop data (js "access_token")) as [v|] eqn:Eg; cbn;
      [|discriminate].
    intros H. injection H as <-. now exists r, data.
  - intros (r & data & Ha & Hok & Hp & Hg).
    apply (token_outcome_ok rt w r data tok Ha Hok Hp Hg).
Qed.

(** X7. For an error built from a provider's response, [info] is either the
    raw body or a truthy [message] member of the body read as JSON; it is
    truthy whenever the body is not empty. *)
Theorem provider_error_info (rt : Runtime) (p t : string) (body : jsstring) :
  (body <> [] -> truthy (errorInfo rt (api_error p t body)) = true)
  /\
  (errorInfo rt (api_error p t body) = JStr body
   \/ exists v,
        JSON_parse rt body = Some v
        /\ get_prop v (js "message") = Some (errorInfo rt (api_error p t body))
        /\ truthy (errorInfo rt (api_error p t body)) = true).
Proof.
  unfold errorInfo. cbn [e_text api_error].
  destruct (JSON_parse rt body) as [v|]; cbn.
  2:{ split; [|now left]. destruct body; [contradiction|reflexivity]. }
  destruct (get_prop v (js "message")) as [m|] eqn:Eg.
  2:{ split; [|now left]. destruct body; [contradiction|reflexivity]. }
  destruct (truthy m) eqn:Em.
  - split; [auto|]. right. now exists v.
  - split; [|now left]. destruct body; [contradiction|reflexivity].
Qed.


Lemma provider_error_info_witness :
  truthy (errorInfo Example.runtime
            (api_error "Zoom API error: " "zoom" (js "Service Unavailable"))) = true.
Proof.
  apply (proj1 (provider_error_info Example.runtime "Zoom API error: " "zoom"
                  (js "Service Unavailable"))).
  discriminate.
Defined.

Lemma base_list_call_follows_response_witness :
  exists tok join_url,
    trace (fst (run (Base.register Example.runtime Example.valid_request) Example.all_ok))
    = [EvFetch token_call; EvFetch (Base.zoom_call Example.valid_request tok);
       EvSend 200 (success_body join_url);
       EvFetch (Base.mailchimp_call Example.valid_request)].
Proof.
  apply (base_list_call_follows_response
           Example.runtime Example.all_ok Example.valid_request
           (Base.mailchimp_call Example.valid_request) MAILCHIMP_LIST_ID).
  - vm_compute. auto 10.
  - reflexivity.
Defined.

Lemma extended_validation_is_stricter_witness :
  calls_of (Extended.register Example.runtime
              (with_email (Example.str "a@b") Example.valid_request)) Example.all_ok
  = [].
Proof.
  apply extended_validation_is_stricter. vm_compute. reflexivity.
Defined.

Lemma second_list_called_whatever_first_answers_witness :
  let list1_down :=
    Example.world Example.token_ok Example.zoom_ok
      (Example.reply 500 "Internal Server Error") Example.list_ok in
  calls_of (Extended.register Example.runtime Example.valid_request) list1_down
  = extended_call_sequence Example.valid_request (Example.str "tok").
Proof.
  intros list1_down.
  apply (second_list_called_whatever_first_answers
           Example.runtime list1_down Example.valid_request (Example.str "tok")
           {| status := 201;
              text := Example.jsq "{'join_url':'https://zoom.example/j/1'}" |}
           {| status := 500; text := Example.jsq "Internal Server Error" |}
           (JObj [(js "join_url", Example.str "https://zoom.example/j/1")])
           valid_request_valid_extended eq_refl (conj eq_refl eq_refl)
           eq_refl eq_refl (conj eq_refl eq_refl)).
Defined.

(** ** Provider errors in the response *)

(** X18. In the extended variant, when the second list answers in 200..299
    and the first one does not, the response is the 500 built from the
    first list's answer: [errorAt] is "mailchimp 1" and [info] is that
    answer's message or raw body. *)
Theorem first_list_failure_reported
    (rt : Runtime) (w : World) (req : Request)
    (tok : jsval) (r m1 m2 : Response) (zoomData : jsval) :
  valid_extended rt req ->
  token_outcome rt w = Returned tok ->
  answers w (Extended.zoom_call req (Extended.normalized_region req) tok) r ->
  ok r = true ->
  JSON_parse rt (text r) = Some zoomData ->
  answers w (Extended.mailchimp_call MAILCHIMP_LIST_ID req
               (Extended.normalized_region req)) m1 ->
  answers w (Extended.mailchimp_call MAILCHIMP_LIST_ID_2 req
               (Extended.normalized_region req)) m2 ->
  ok m1 = false ->
  ok m2 = true ->
  exists body,
    responses_of (Extended.register rt req) w = [(500, body)]
    /\ errorAt body = Some (JStr (js "mailchimp 1"))
    /\ info body
       = Some (errorInfo rt
                 (api_error "Mailchimp 1 List API error: " "mailchimp 1" (text m1))).
Proof.
  intros Hv Ht Hz Hok Hp H1 H2 Hok1 Hok2.
  exists (error_body rt
            (api_error "Mailchimp 1 List API error: " "mailchimp 1" (text m1))).
  split; [|split; reflexivity].
  unfold responses_of, run.
  rewrite (extended_register_valid rt req Hv). unfold try_catch.
  rewrite (extended_attempt_lists rt w req _ tok r m1 m2 zoomData Ht Hz Hok Hp H1 H2).
  rewrite !extended_guard_is_not_ok, Hok1, Hok2. cbn [negb].
  rewrite extended_on_error_run. reflexivity.
Qed.

Lemma first_list_failure_reported_witness :
  let w :=
    Example.world Example.token_ok Example.zoom_ok
      (Example.reply 404 "{'title':'Resource Not Found','message':'no such list'}")
      Example.list_ok in
  exists body,
    responses_of (Extended.register Example.runtime Example.valid_request) w
    = [(500, body)]
    /\ errorAt body = Some (JStr (js "mailchimp 1"))
    /\ info body = Some (Example.str "no such list").
Proof.
  intros w.
  apply (first_list_failure_reported
           Example.runtime w Example.valid_request (Example.str "tok")
           {| status := 201;
              text := Example.jsq "{'join_url':'https://zoom.example/j/1'}" |}
           {| status := 404;
              text := Example.jsq "{'title':'Resource Not Found','message':'no such list'}" |}
           {| status := 200; text := Example.jsq "{'id':'m1'}" |}
           (JObj [(js "join_url", Example.str "https://zoom.example/j/1")])
           valid_request_valid_extended eq_refl (conj eq_refl eq_refl)
           eq_refl eq_refl (conj eq_refl eq_refl) (conj eq_refl eq_refl)
           eq_refl eq_refl).
Defined.

(** X19. When registrant creation fails with a status outside 200..299,
    the 500 of either variant carries in [info] the [message] member of the
    registrant endpoint's body when that body is JSON with a truthy
    [message], and the raw body when it is not JSON. *)
Theorem registrant_failure_info
    (rt : Runtime) (w : World) (req : Request) (tok : jsval) (r : Response) :
  token_outcome rt w = Returned tok ->
  ok r = false ->
  let reported body :=
    (forall v m, JSON_parse rt (text r) = Some v ->
                 get_prop v (js "message") = Some m -> truthy m = true ->
                 info body = Some m)
    /\ (JSON_parse rt (text r) = None -> info body = Some (JStr (text r))) in
  (valid_base rt req ->
   answers w (Base.zoom_call req tok) r ->
   exists body,
     responses_of (Base.register rt req) w = [(500, body)] /\ reported body)
  /\
  (valid_extended rt req ->
   answers w (Extended.zoom_call req (Extended.normalized_region req) tok) r ->
   exists body,
     responses_of (Extended.register rt req) w = [(500, body)] /\ reported body).
Proof.
  intros Ht Hok reported.
  assert (Hrep : reported (error_body rt (api_error "Zoom API error: " "zoom" (text r)))).
  { split.
    - intros v m Hp Hg Hm. rewrite info_error_body.
      now rewrite (errorInfo_message rt _ _ (text r) v m Hp Hg Hm).
    - intros Hp. rewrite info_error_body.
      now rewrite (errorInfo_raw_text rt _ _ (text r) Hp). }
  split; intros Hv Hz;
    exists (error_body rt (api_error "Zoom API error: " "zoom" (text r)));
    (split; [|exact Hrep]); unfold responses_of, run.
  - rewrite (base_register_valid rt req Hv). unfold try_catch.
    rewrite (base_attempt_zoom_fails rt w req tok r Ht Hz Hok).
    rewrite base_on_error_run. reflexivity.
  - rewrite (extended_register_valid rt req Hv). unfold try_catch.
    rewrite (extended_attempt_zoom_fails rt w req _ tok r Ht Hz Hok).
    rewrite extended_on_error_run. reflexivity.
Qed.

Lemma registrant_failure_info_witness :
  let gone :=
    Example.world Example.token_ok
      (Example.reply 404 "{'code':'3001','message':'Webinar does not exist.'}")
      Example.list_ok Example.list_ok in
  let down :=
    Example.world Example.token_ok (Example.reply 502 "Bad Gateway")
      Example.list_ok Example.list_ok in
  (exists body,
     responses_of (Base.register Example.runtime Example.valid_request) gone
     = [(500, body)]
     /\ info body = Some (Example.str "Webinar does not exist."))
  /\
  (exists body,
     responses_of (Extended.register Example.runtime Example.valid_request) down
     = [(500, body)]
     /\ info body = Some (Example.str "Bad Gateway")).
Proof.
  intros gone down. split.
  - destruct (proj1 (registrant_failure_info
                       Example.runtime gone Example.valid_request (Example.str "tok")
                       {| status := 404;
                          text := Example.jsq
                                    "{'code':'3001','message':'Webinar does not exist.'}" |}
                       eq_refl eq_refl)
                valid_request_valid_base (conj eq_refl eq_refl))
      as (body & Hresp & Hmsg & _).
    exists body. split; [exact Hresp|].
    apply (Hmsg (JObj [(js "code", Example.str "3001");
                       (js "message", Example.str "Webinar does not exist.")])
             (Example.str "Webinar does not exist.")); reflexivity.
  - destruct (proj2 (registrant_failure_info
                       Example.runtime down Example.valid_request (Example.str "tok")
                       {| status := 502; text := Example.jsq "Bad Gateway" |}
                       eq_refl eq_refl)
                valid_request_valid_extended (conj eq_refl eq_refl))
      as (body & Hresp & _ & Hraw).
    exists body. split; [exact Hresp|]. apply Hraw. reflexivity.
Defined.

(** ** Values that cannot be converted to a string *)

Lemma extended_register_unconvertible (rt : Runtime) (w : World) (req : Request) :
  is_POST req -> Forall present (required_extended req) ->
  email_test rt req = None ->
  run (Extended.register rt req) w
  = ({| trace := [allow_origin_event;
                  EvSend 500 (JObj [(js "message", JStr (js "Internal Server Error"));
                                    (js "error",
                                     JStr (Error_toString conversion_error))])];
        headersSent := true |}, Returned tt).
Proof.
  unfold is_POST. intros Hm Hp He.
  unfold run, Extended.register, Extended.cors, Extended.callback.
  rewrite Hm, POST_is_not_OPTIONS, jsstring_eqb_refl.
  unfold try_catch, bind. rewrite (extended_check_present req Hp).
  cbn [negb]. now rewrite (test_email_throws rt req w fresh He).
Qed.

(** X20. Once registrant creation has succeeded, the response of the base
    variant is the 200 with the message and the join URL, whatever the list
    endpoint does afterwards: answer with any status, or not answer at
    all. *)
Theorem base_response_after_registrant
    (rt : Runtime) (w : World) (req : Request)
    (tok : jsval) (r : Response) (zoomData join_url : jsval) :
  valid_base rt req ->
  token_outcome rt w = Returned tok ->
  answers w (Base.zoom_call req tok) r -> ok r = true ->
  JSON_parse rt (text r) = Some zoomData ->
  get_prop zoomData (js "join_url") = Some join_url ->
  responses_of (Base.register rt req) w
  = [(200, JObj [(js "message", JStr (js "Registration successful"));
                 (js "join_url", join_url)])].
Proof.
  intros Hv Ht Hz Hok Hp Hg. unfold responses_of, run.
  rewrite (base_register_valid rt req Hv). unfold try_catch.
  rewrite (base_attempt_zoom_ok rt w req tok r zoomData join_url Ht Hz Hok Hp Hg).
  destruct (w (Base.mailchimp_call req)) as [e|m]; [reflexivity|].
  destruct (negb (ok m) && negb (status m =? 400)); reflexivity.
Qed.

Lemma base_response_after_registrant_witness :
  let list_down :=
    Example.world Example.token_ok Example.zoom_ok
      (Example.reply 500 "Internal Server Error") Example.list_ok in
  responses_of (Base.register Example.runtime Example.valid_request) list_down
  = [(200, JObj [(js "message", JStr (js "Registration successful"));
                 (js "join_url", Example.str "https://zoom.example/j/1")])].
Proof.
  intros list_down.
  apply (base_response_after_registrant
           Example.runtime list_down Example.valid_request (Example.str "tok")
           {| status := 201;
              text := Example.jsq "{'join_url':'https://zoom.example/j/1'}" |}
           (JObj [(js "join_url", Example.str "https://zoom.example/j/1")])
           (Example.str "https://zoom.example/j/1")
           valid_request_valid_base eq_refl (conj eq_refl eq_refl)
           eq_refl eq_refl eq_refl).
Defined.

(** X21. When the token is acquired but the event id, or the token itself,
    cannot be converted to a string, the registrant call is never issued:
    building its URL or its header throws inside the [try] block.  The
    token call stays the only call, and the response is a 500 whose [info]
    and [errorAt] are undefined.  Both variants. *)
Theorem unconvertible_event_id_stops_before_registrant
    (rt : Runtime) (w : World) (req : Request) (tok : jsval) :
  token_outcome rt w = Returned tok ->
  ToString rt (eventId req) = None \/ ToString rt tok = None ->
  let body := JObj [(js "message", JStr (js "Internal Server Error"));
                    (js "info", JUndefined);
                    (js "errorAt", JUndefined)] in
  (valid_base rt req ->
   calls_of (Base.register rt req) w = [token_call]
   /\ responses_of (Base.register rt req) w = [(500, body)])
  /\
  (valid_extended rt req ->
   calls_of (Extended.register rt req) w = [token_call]
   /\ responses_of (Extended.register rt req) w = [(500, body)]).
Proof.
  intros Ht Hc body. split; intros Hv; unfold calls_of, responses_of, run.
  - rewrite (base_register_valid rt req Hv). unfold try_catch.
    rewrite (base_attempt_unconvertible rt w req tok Ht Hc).
    rewrite base_on_error_run. split; reflexivity.
  - rewrite (extended_register_valid rt req Hv). unfold try_catch.
    rewrite (extended_attempt_unconvertible rt w req _ tok Ht Hc).
    rewrite extended_on_error_run. split; reflexivity.
Qed.

Lemma unconvertible_event_id_stops_before_registrant_witness :
  let req := with_eventId Example.unconvertible Example.valid_request in
  let body := JObj [(js "message", JStr (js "Internal Server Error"));
                    (js "info", JUndefined);
                    (js "errorAt", JUndefined)] in
  (calls_of (Base.register Example.runtime req) Example.all_ok = [token_call]
   /\ responses_of (Base.register Example.runtime req) Example.all_ok = [(500, body)])
  /\
  (calls_of (Extended.register Example.runtime req) Example.all_ok = [token_call]
   /\ responses_of (Extended.register Example.runtime req) Example.all_ok
      = [(500, body)]).
Proof.
  intros req body.
  destruct (unconvertible_event_id_stops_before_registrant
              Example.runtime Example.all_ok req (Example.str "tok")
              eq_refl (or_introl eq_refl)) as [Hbase Hext].
  split; [apply Hbase|apply Hext]; repeat split; repeat constructor.
Defined.

(** X22. A POST request whose required fields are all present and whose
    e-mail cannot be converted to a string makes [emailRegex.test] throw.
    In the base variant the test stands before the [try] block: no response
    is sent, no call is made and the promise rejects.  In the extended
    variant the outer [catch] writes the [Access-Control-Allow-Origin]
    header and answers 500 with the error's text; no call is made. *)
Theorem unconvertible_email_throws
    (rt : Runtime) (w : World) (req : Request) :
  is_POST req ->
  email_test rt req = None ->
  (Forall present (required_base req) ->
   run (Base.register rt req) w = (fresh, Thrown conversion_error)
   /\ responses_of (Base.register rt req) w = []
   /\ calls_of (Base.register rt req) w = [])
  /\
  (Forall present (required_extended req) ->
   responses_of (Extended.register rt req) w
   = [(500, JObj [(js "message", JStr (js "Internal Server Error"));
                  (js "error",
                   JStr (js "TypeError: Cannot convert object to primitive value"))])]
   /\ calls_of (Extended.register rt req) w = []
   /\ In allow_origin_event (trace (fst (run (Extended.register rt req) w)))
   /\ snd (run (Extended.register rt req) w) = Returned tt).
Proof.
  intros Hm He. split; intros Hp.
  - pose proof (base_register_unconvertible rt w req Hm Hp He) as E.
    unfold responses_of, calls_of. rewrite E. repeat split.
  - pose proof (extended_register_unconvertible rt w req Hm Hp He) as E.
    unfold responses_of, calls_of. rewrite E. cbn [fst snd trace].
    split; [reflexivity|]. split; [reflexivity|]. split; [|reflexivity].
    now left.
Qed.

Lemma unconvertible_email_throws_witness :
  let req := with_email Example.unconvertible Example.valid_request in
  responses_of (Base.register Example.runtime req) Example.all_ok = []
  /\ exists body,
       responses_of (Extended.register Example.runtime req) Example.all_ok
       = [(500, body)].
Proof.
  intros req.
  destruct (unconvertible_email_throws Example.runtime Example.all_ok req
              eq_refl eq_refl) as [Hbase Hext].
  split.
  - apply Hbase. repeat constructor.
  - eexists. apply Hext. repeat constructor.
Defined.

(** X23. The base handler sends exactly one response, except for the POST
    requests with all required fields whose e-mail cannot be converted to a
    string: for those, and only for those, it sends none. *)
Theorem base_responds_once_unless_email_unconvertible
    (rt : Runtime) (w : World) (req : Request) :
  ((exists response, responses_of (Base.register rt req) w = [response])
   <-> ~ (is_POST req /\ Forall present (required_base req)
          /\ email_test rt req = None))
  /\
  (responses_of (Base.register rt req) w = []
   <-> is_POST req /\ Forall present (required_base req)
       /\ email_test rt req = None).
Proof.
  assert (Hnone : is_POST req /\ Forall present (required_base req)
                  /\ email_test rt req = None ->
                  responses_of (Base.register rt req) w = []).
  { intros (Hm & Hp & He). unfold responses_of.
    now rewrite (base_register_unconvertible rt w req Hm Hp He). }
  assert (Hone : (exists response, responses_of (Base.register rt req) w = [response])
                 \/ (is_POST req /\ Forall present (required_base req)
                     /\ email_test rt req = None)).
  { unfold responses_of.
    destruct (base_run_cases rt w req)
      as [(_ & code & body & _ & ->)
         |[(Hm & Hp & He & _)
          |[(_ & e' & _ & ->)
           |[(_ & tok & e' & _ & ->)
            |(_ & tok & r & d & j & _ & _ & _ & _ & _ & ->)]]]];
      cbn [fst trace responses]; eauto. }
  split; split.
  - intros [response H] Hu. rewrite (Hnone Hu) in H. discriminate H.
  - intros Hn. destruct Hone as [H|H]; [exact H|contradiction].
  - intros H. destruct Hone as [[response H']|H']; [|exact H'].
    rewrite H in H'. discriminate H'.
  - exact Hnone.
Qed.
